(** * AI-Evaluator backend: the response parsers of [gemini.ts] and the
      [/summarize] route, embedded and verified.

    Source files covered:
    - [backend/src/gemini.ts]: [parseCodeAnalysisResponse] (lines 248-392)
      and [parseAnalysisResponse] (lines 394-496); [detectInputType]
      (lines 41-71); [analyzeText] (lines 73-118) and its convenience
      functions (lines 499-530);
    - [backend/src/routes/summarize.ts]: the [POST /summarize] handler;
    - [backend/src/routes/analyze.ts]: the [POST /analyze] handler.

    JavaScript strings are sequences of UTF-16 code units; they are modelled
    as [list N].  Regular expressions are kept as syntax trees and run by a
    backtracking matcher that follows the order in which the ECMAScript
    matcher explores alternatives (leftmost start, greedy quantifiers try
    the longest repetition first, lazy ones the shortest). *)

From Stdlib Require Import List Bool Arith ZArith NArith Lia.
From Stdlib Require String Ascii.
Import ListNotations String.StringSyntax.
Open Scope string_scope.
Open Scope list_scope.

Set Implicit Arguments.

(* ================================================================== *)
(** ** JavaScript strings *)
(* ================================================================== *)

Module JS.

Definition jsstring := list N.

(** An ASCII literal of the source as a sequence of code units. *)
Definition js (s : String.string) : jsstring :=
  map Ascii.N_of_ascii (String.list_ascii_of_string s).

Definition between (lo hi c : N) : bool := ((lo <=? c) && (c <=? hi))%N.

(** [\d] *)
Definition isDigit (c : N) : bool := between 48 57 c.

(** [\w] is [[A-Za-z0-9_]] *)
Definition isWordChar (c : N) : bool :=
  between 97 122 c || between 65 90 c || isDigit c || (c =? 95)%N.

(** LineTerminator: LF, CR, U+2028, U+2029 *)
Definition isLineTerminator (c : N) : bool :=
  ((c =? 10) || (c =? 13) || (c =? 8232) || (c =? 8233))%N.

(** WhiteSpace: TAB, VT, FF, SP, NBSP, the Zs category and U+FEFF *)
Definition isWhiteSpace (c : N) : bool :=
  ((c =? 9) || (c =? 11) || (c =? 12) || (c =? 32) || (c =? 160)
   || (c =? 5760) || between 8192 8202 c || (c =? 8239) || (c =? 8287)
   || (c =? 12288) || (c =? 65279))%N.

(** [\s], and the characters removed by [String.prototype.trim] *)
Definition isSpace (c : N) : bool := isWhiteSpace c || isLineTerminator c.

(** [.] without the [s] flag *)
Definition isDot (c : N) : bool := negb (isLineTerminator c).

(** [[\s\S]] *)
Definition isAny (_ : N) : bool := true.

Fixpoint dropWhile (p : N -> bool) (s : jsstring) : jsstring :=
  match s with
  | [] => []
  | c :: s' => if p c then dropWhile p s' else s
  end.

Fixpoint takeWhile (p : N -> bool) (s : jsstring) : jsstring :=
  match s with
  | [] => []
  | c :: s' => if p c then c :: takeWhile p s' else []
  end.

Definition trimStart (s : jsstring) : jsstring := dropWhile isSpace s.
Definition trimEnd (s : jsstring) : jsstring := rev (dropWhile isSpace (rev s)).

(** [String.prototype.trim] *)
Definition trim (s : jsstring) : jsstring := trimEnd (trimStart s).

(** [String.prototype.toLowerCase], one code unit at a time.  The ASCII
    capitals map to their small letters.  Two code units outside ASCII have a
    lower case that contains an ASCII letter: U+212A (KELVIN SIGN) becomes
    [k], and U+0130 becomes [i] followed by U+0307.  Every other code unit
    outside ASCII has a lower case outside ASCII; it is left as it is here,
    which makes no difference to the only use the parsers make of
    [toLowerCase], a [startsWith] test against an ASCII literal. *)
Definition lowerUnit (c : N) : jsstring :=
  if between 65 90 c then [(c + 32)%N]
  else if (c =? 8490)%N then [107%N]
  else if (c =? 304)%N then [105%N; 775%N]
  else [c].

Definition toLowerCase (s : jsstring) : jsstring := flat_map lowerUnit s.

(** [String.prototype.startsWith] *)
Fixpoint startsWith (s prefix : jsstring) {struct prefix} : bool :=
  match prefix, s with
  | [], _ => true
  | p :: prefix', c :: s' => (c =? p)%N && startsWith s' prefix'
  | _ :: _, [] => false
  end.

(** [String.prototype.split] on a one-unit separator *)
Fixpoint split (sep : N) (s : jsstring) : list jsstring :=
  match s with
  | [] => [[]]
  | c :: s' =>
      if (c =? sep)%N then [] :: split sep s'
      else match split sep s' with
           | [] => [[c]]
           | l :: ls => (c :: l) :: ls
           end
  end.

(** [Array.prototype.join] *)
Fixpoint join (sep : jsstring) (parts : list jsstring) : jsstring :=
  match parts with
  | [] => []
  | [p] => p
  | p :: ps => p ++ sep ++ join sep ps
  end.

Definition isEmpty (s : jsstring) : bool :=
  match s with [] => true | _ => false end.

(** [Array.prototype.findIndex]; [None] stands for [-1]. *)
Fixpoint findIndex (A : Type) (p : A -> bool) (l : list A) : option nat :=
  match l with
  | [] => None
  | x :: l' => if p x then Some 0 else option_map S (findIndex p l')
  end.

(** Line feed, the bullet U+2022 and the backtick. *)
Definition LF : N := 10.
Definition BULLET : N := 8226.
Definition BACKTICK : N := 96.

(** A reply written as its lines. *)
Definition unlines (ls : list String.string) : jsstring :=
  join [LF] (map js ls).

End JS.
Import JS.

(* ================================================================== *)
(** ** Numbers: [parseFloat], [parseInt], [Math.round], [Math.min] *)
(* ================================================================== *)

Module Num.
Open Scope Z_scope.

(** A non-negative IEEE-754 binary64 value: [Finite m q] is [m * 2^q]. *)
Inductive number :=
| Finite (m q : Z)
| PosInf.

(** Value of a run of decimal digits. *)
Definition digitsValue (ds : jsstring) : Z :=
  fold_left (fun acc d => 10 * acc + (Z.of_N d - 48)) ds 0.

(** [floorLog2 n d] is the [e] with [2^e <= n/d < 2^(e+1)], for [n, d > 0]. *)
Definition floorLog2 (n d : Z) : Z :=
  let e0 := Z.log2 n - Z.log2 d in
  let ge := if 0 <=? e0 then d * 2 ^ e0 <=? n else d <=? n * 2 ^ (- e0) in
  if ge then e0 else e0 - 1.

(** Nearest integer to [a/b], ties to even. *)
Definition roundNearestEven (a b : Z) : Z :=
  let fl := a / b in
  let r := a mod b in
  if 2 * r <? b then fl
  else if b <? 2 * r then fl + 1
  else if Z.even fl then fl else fl + 1.

(** The binary64 value nearest to the rational [n/d] ([n >= 0], [d > 0]):
    53 significant bits, gradual underflow below [2^-1022], overflow to
    infinity from [2^1024]. *)
Definition toDouble (n d : Z) : number :=
  if n <=? 0 then Finite 0 0
  else
    let e := floorLog2 n d in
    let q := Z.max (e - 52) (-1074) in
    let m := if 0 <=? q then roundNearestEven n (d * 2 ^ q)
             else roundNearestEven (n * 2 ^ (- q)) d in
    if m =? 0 then Finite 0 0
    else if 1024 <=? q + Z.log2 m then PosInf
    else Finite m q.

(** [parseFloat] on a string of the shape [\d+(?:\.\d+)?], which is what
    capture 1 of every score pattern holds. *)
Definition parseFloat (s : jsstring) : number :=
  let ip := takeWhile isDigit s in
  let rest := dropWhile isDigit s in
  let fp := match rest with
            | c :: rest' => if (c =? 46)%N then takeWhile isDigit rest' else []
            | [] => []
            end in
  toDouble (digitsValue (ip ++ fp)) (10 ^ Z.of_nat (length fp)).

(** [parseInt] on a run of decimal digits. *)
Definition parseInt (s : jsstring) : number :=
  toDouble (digitsValue (takeWhile isDigit s)) 1.

(** [Math.round]: the nearest integer, ties towards [+oo]. *)
Definition round (x : number) : number :=
  match x with
  | PosInf => PosInf
  | Finite m q =>
      if 0 <=? q then Finite m q
      else Finite ((m + 2 ^ (- q - 1)) / 2 ^ (- q)) 0
  end.

(** The integer that an integral value denotes. *)
Definition integerValue (m q : Z) : Z :=
  if 0 <=? q then m * 2 ^ q else m / 2 ^ (- q).

(** [Math.min(x, maxScore)] for an integer [maxScore] and an integral [x],
    which a result of [Math.round] or of [parseInt] is. *)
Definition minWith (x : number) (maxScore : Z) : Z :=
  match x with
  | PosInf => maxScore
  | Finite m q => Z.min (integerValue m q) maxScore
  end.

End Num.

(* ================================================================== *)
(** ** Regular expressions *)
(* ================================================================== *)

Module Regex.

(** The fragment of the pattern language that [gemini.ts] uses.  Every
    quantifier [*], [+], [*?] of the source stands on a single character
    class, and [?] on a group. *)
Inductive regex :=
| Eps
| Chr (a : N)                 (* a literal character *)
| Cls (p : N -> bool)         (* a character class *)
| Bol                         (* ^ without the m flag *)
| Seq (r1 r2 : regex)
| Alt (r1 r2 : regex)         (* r1|r2 *)
| Opt (r : regex)             (* (?:r)? *)
| Star (p : N -> bool)        (* [p]* *)
| Plus (p : N -> bool)        (* [p]+ *)
| LazyStar (p : N -> bool)    (* [p]*? *)
| Grp (n : nat) (r : regex).  (* the n-th capturing group *)

(** A literal string is the sequence of its characters. *)
Fixpoint lit (s : jsstring) : regex :=
  match s with
  | [] => Eps
  | a :: s' => Seq (Chr a) (lit s')
  end.

(** A sequence of parts. *)
Definition seqs (rs : list regex) : regex := fold_right Seq Eps rs.

(** Canonicalize of the [i] flag.  A code unit outside ASCII never
    canonicalizes to an ASCII one, and the literals of the patterns are all
    ASCII, so only the ASCII letters need folding. *)
Definition canon (c : N) : N := if between 97 122 c then (c - 32)%N else c.

Definition chrEq (ci : bool) (a x : N) : bool :=
  if ci then (canon a =? canon x)%N else (a =? x)%N.

Definition caps := list (nat * jsstring).

(** State at the end of a match: end offset, remaining input, captures. *)
Definition mstate := (nat * jsstring * caps)%type.
Definition cont := nat -> jsstring -> caps -> option mstate.

Fixpoint starGreedy (p : N -> bool) (pos : nat) (s : jsstring) (c : caps)
    (k : cont) : option mstate :=
  match s with
  | x :: s' =>
      if p x then
        match starGreedy p (S pos) s' c k with
        | Some r => Some r
        | None => k pos s c
        end
      else k pos s c
  | [] => k pos s c
  end.

Fixpoint starLazy (p : N -> bool) (pos : nat) (s : jsstring) (c : caps)
    (k : cont) : option mstate :=
  match k pos s c with
  | Some r => Some r
  | None =>
      match s with
      | x :: s' => if p x then starLazy p (S pos) s' c k else None
      | [] => None
      end
  end.

(** [rmatch ci r pos s c k]: match [r] at offset [pos], where [s] is the
    input from [pos] on, then continue with [k]; [None] is failure, after
    which the caller backtracks.  [ci] is the [i] flag. *)
Fixpoint rmatch (ci : bool) (r : regex) (pos : nat) (s : jsstring) (c : caps)
    (k : cont) : option mstate :=
  match r with
  | Eps => k pos s c
  | Chr a =>
      match s with
      | x :: s' => if chrEq ci a x then k (S pos) s' c else None
      | [] => None
      end
  | Cls p =>
      match s with
      | x :: s' => if p x then k (S pos) s' c else None
      | [] => None
      end
  | Bol => if Nat.eqb pos 0 then k pos s c else None
  | Seq r1 r2 =>
      rmatch ci r1 pos s c (fun pos' s' c' => rmatch ci r2 pos' s' c' k)
  | Alt r1 r2 =>
      match rmatch ci r1 pos s c k with
      | Some x => Some x
      | None => rmatch ci r2 pos s c k
      end
  | Opt r1 =>
      match rmatch ci r1 pos s c k with
      | Some x => Some x
      | None => k pos s c
      end
  | Star p => starGreedy p pos s c k
  | Plus p =>
      match s with
      | x :: s' => if p x then starGreedy p (S pos) s' c k else None
      | [] => None
      end
  | LazyStar p => starLazy p pos s c k
  | Grp n r1 =>
      rmatch ci r1 pos s c
        (fun pos' s' c' => k pos' s' ((n, firstn (pos' - pos) s) :: c'))
  end.

Definition accept : cont := fun pos s c => Some (pos, s, c).

(** The result of [String.prototype.match] with a non-global pattern. *)
Record MatchResult := {
  m_index : nat;       (* where the match starts *)
  m_rest : jsstring;   (* the input after the match *)
  m_caps : caps
}.

(** Try every start offset from left to right. *)
Fixpoint search (ci : bool) (r : regex) (pos : nat) (s : jsstring)
    : option MatchResult :=
  match rmatch ci r pos s [] accept with
  | Some (_, rest, c) =>
      Some {| m_index := pos; m_rest := rest; m_caps := c |}
  | None =>
      match s with
      | [] => None
      | _ :: s' => search ci r (S pos) s'
      end
  end.

(** A pattern with its flags. *)
Record pattern := { p_ci : bool; p_re : regex }.

(** [s.match(p)] *)
Definition exec (p : pattern) (s : jsstring) : option MatchResult :=
  search (p_ci p) (p_re p) 0 s.

(** [match[n]]; [None] is [undefined]. *)
Fixpoint lookup (n : nat) (c : caps) : option jsstring :=
  match c with
  | [] => None
  | (i, v) :: c' => if Nat.eqb i n then Some v else lookup n c'
  end.

Definition group (n : nat) (m : MatchResult) : option jsstring :=
  lookup n (m_caps m).

(** [s.replace(p, '')] with a non-global pattern: the first match is cut
    out, and a string without a match is returned unchanged. *)
Definition replaceEmpty (p : pattern) (s : jsstring) : jsstring :=
  match exec p s with
  | Some m => firstn (m_index m) s ++ m_rest m
  | None => s
  end.

(** [p.test(s)], also the truth value of [s.match(p)] *)
Definition test (p : pattern) (s : jsstring) : bool :=
  match exec p s with Some _ => true | None => false end.

End Regex.
Import Regex.

(* ================================================================== *)
(** ** The response parsers of [gemini.ts] *)
(* ================================================================== *)

Module Gemini.
Import Num.
Open Scope Z_scope.

(** [interface CodeIssue]; [type] and [severity] are strings at run time,
    the union types of the interface are erased by the compiler. *)
Record CodeIssue := {
  type : jsstring;
  line : option number;
  description : jsstring;
  severity : jsstring;
  suggestion : jsstring
}.

(** [interface AnalysisResult]; an optional property that is absent or
    [undefined] is [None]. *)
Record AnalysisResult := {
  score : Z;
  feedback : jsstring;
  strengths : list jsstring;
  improvements : list jsstring;
  category : option jsstring;
  correctedCode : option jsstring;
  optimizedCode : option jsstring;
  codeIssues : option (list CodeIssue)
}.

(** *** The patterns *)

Definition ws : regex := Star isSpace.                          (* \s* *)
Definition digits : regex := Plus isDigit.                      (* \d+ *)
Definition decimal : regex :=                                   (* \d+(?:\.\d+)? *)
  seqs [digits; Opt (seqs [Chr 46; digits])].
Definition SLASH : N := 47.
Definition PIPE : N := 124.

(** [scorePatterns], in the order of the array. *)
Definition scorePatterns : list pattern :=
  [ (* /SCORE:\s*(\d+(?:\.\d+)?)/i *)
    {| p_ci := true;
       p_re := seqs [lit (js "SCORE:"); ws; Grp 1 decimal] |};
    (* /Score:\s*(\d+(?:\.\d+)?)/i *)
    {| p_ci := true;
       p_re := seqs [lit (js "Score:"); ws; Grp 1 decimal] |};
    (* /(\d+(?:\.\d+)?)\/\d+/ *)
    {| p_ci := false;
       p_re := seqs [Grp 1 decimal; Chr SLASH; digits] |};
    (* /(\d+(?:\.\d+)?)\s*(?:out of|\/)\s*\d+/i *)
    {| p_ci := true;
       p_re := seqs [Grp 1 decimal; ws; Alt (lit (js "out of")) (Chr SLASH);
                     ws; digits] |} ].

(** [/category:\s*/i] and [/feedback:\s*/i] *)
Definition categoryPattern : pattern :=
  {| p_ci := true; p_re := seqs [lit (js "category:"); ws] |}.
Definition feedbackPattern : pattern :=
  {| p_ci := true; p_re := seqs [lit (js "feedback:"); ws] |}.

(** [/^\d+\./] *)
Definition numberedPattern : pattern :=
  {| p_ci := false; p_re := seqs [Bol; digits; Chr 46] |}.

(** The class [[-\u2022\d.\s]] and the pattern [/^[-\u2022\d.\s]+/] *)
Definition isMarkerChar (c : N) : bool :=
  (c =? 45)%N || (c =? BULLET)%N || isDigit c || (c =? 46)%N || isSpace c.
Definition markerPattern : pattern :=
  {| p_ci := false; p_re := seqs [Bol; Plus isMarkerChar] |}.

(** [/CORRECTED_CODE:\s*```[\w]*\n([\s\S]*?)```/i], and the same with
    [OPTIMIZED_CODE:]. *)
Definition FENCE : jsstring := [BACKTICK; BACKTICK; BACKTICK].
Definition fencePattern (marker : jsstring) : pattern :=
  {| p_ci := true;
     p_re := seqs [lit marker; ws; lit FENCE; Star isWordChar; Chr LF;
                   Grp 1 (LazyStar isAny); lit FENCE] |}.

(** [/TYPE:\s*(\w+)\s*\|\s*SEVERITY:\s*(\w+)(?:\s*\|\s*LINE:\s*(\d+))?\s*\|\s*DESCRIPTION:\s*([^|]+)\s*\|\s*SUGGESTION:\s*(.+)/i] *)
Definition isNotPipe (c : N) : bool := negb (c =? PIPE)%N.
Definition bar : regex := seqs [ws; Chr PIPE; ws].              (* \s*\|\s* *)
Definition issuePattern : pattern :=
  {| p_ci := true;
     p_re :=
       seqs [lit (js "TYPE:"); ws; Grp 1 (Plus isWordChar); bar;
             lit (js "SEVERITY:"); ws; Grp 2 (Plus isWordChar);
             Opt (seqs [bar; lit (js "LINE:"); ws; Grp 3 digits]); bar;
             lit (js "DESCRIPTION:"); ws; Grp 4 (Plus isNotPipe); bar;
             lit (js "SUGGESTION:"); ws; Grp 5 (Plus isDot)] |}.

(** [/(\d+)(?:\s*\/\s*\d+|\s*out\s*of\s*\d+|\s*points?)?/i] *)
Definition fallbackPattern : pattern :=
  {| p_ci := true;
     p_re :=
       seqs [Grp 1 digits;
             Opt (Alt (seqs [ws; Chr SLASH; ws; digits])
                 (Alt (seqs [ws; lit (js "out"); ws; lit (js "of"); ws; digits])
                      (seqs [ws; lit (js "point"); Opt (Chr 115)])))] |}.

(** [match[n]] of a group that took part in the match. *)
Definition capture (n : nat) (m : MatchResult) : jsstring :=
  match group n m with Some v => v | None => [] end.

(** *** The steps shared by the two parsers *)

(** [responseText.split('\n').map(line => line.trim())
      .filter(line => line.length > 0)] *)
Definition splitLines (responseText : jsstring) : list jsstring :=
  filter (fun l => negb (isEmpty l)) (map trim (split LF responseText)).

(** The inner loop over [scorePatterns]: the first pattern that matches. *)
Fixpoint tryPatterns (ps : list pattern) (l : jsstring) : option MatchResult :=
  match ps with
  | [] => None
  | p :: ps' =>
      match exec p l with
      | Some m => Some m
      | None => tryPatterns ps' l
      end
  end.

(** [Math.min(Math.round(parseFloat(match[1])), maxScore)] *)
Definition lineScore (maxScore : Z) (m : MatchResult) : Z :=
  minWith (round (parseFloat (capture 1 m))) maxScore.

(** The outer loop over the lines, from the running value [score]. *)
Fixpoint scanScore (maxScore score : Z) (lines : list jsstring) : Z :=
  match lines with
  | [] => score
  | l :: rest =>
      let score' := match tryPatterns scorePatterns l with
                    | Some m => lineScore maxScore m
                    | None => score
                    end in
      if 0 <? score' then score' else scanScore maxScore score' rest
  end.

(** [line.toLowerCase().startsWith(marker)] *)
Definition isHeader (marker : String.string) (l : jsstring) : bool :=
  startsWith (toLowerCase l) (js marker).

Definition isAnyHeader (markers : list String.string) (l : jsstring) : bool :=
  existsb (fun m => isHeader m l) markers.

Definition extractCategory (lines : list jsstring) : option jsstring :=
  option_map (fun l => trim (replaceEmpty categoryPattern l))
             (find (isHeader "category:") lines).

(** The loop that gathers the feedback lines, breaking at the first line
    that starts one of [stops]. *)
Fixpoint feedbackLoop (stops : list String.string) (ls : list jsstring)
    : list jsstring :=
  match ls with
  | [] => []
  | l :: rest =>
      if isAnyHeader stops l then [] else l :: feedbackLoop stops rest
  end.

Definition extractFeedback (stops : list String.string)
    (lines : list jsstring) : jsstring :=
  match findIndex (isHeader "feedback:") lines with
  | None => []
  | Some i =>
      let head := nth i lines [] in
      let first :=
        if (length (js "feedback:") <? length head)%nat
        then [replaceEmpty feedbackPattern head] else [] in
      trim (join (js " ") (first ++ feedbackLoop stops (skipn (S i) lines)))
  end.

(** [line.startsWith('-') || line.startsWith('\u2022') || line.match(/^\d+\./)] *)
Definition isBullet (l : jsstring) : bool :=
  startsWith l (js "-") || startsWith l [BULLET] || test numberedPattern l.

(** [line.replace(/^[-\u2022\d.\s]+/, '').trim()] *)
Definition stripMarker (l : jsstring) : jsstring :=
  trim (replaceEmpty markerPattern l).

(** The loop of a strengths or improvements section. *)
Fixpoint bulletLoop (stops : list String.string) (ls : list jsstring)
    : list jsstring :=
  match ls with
  | [] => []
  | l :: rest =>
      if isAnyHeader stops l then []
      else if isBullet l then stripMarker l :: bulletLoop stops rest
      else bulletLoop stops rest
  end.

Definition extractSection (marker : String.string)
    (stops : list String.string) (lines : list jsstring) : list jsstring :=
  match findIndex (isHeader marker) lines with
  | None => []
  | Some i => bulletLoop stops (skipn (S i) lines)
  end.

(** [feedback || fallback] *)
Definition orElse (s : jsstring) (fallback : String.string) : jsstring :=
  if isEmpty s then js fallback else s.

(** [items.length > 0 ? items : [placeholder]] *)
Definition orPlaceholder (items : list jsstring) (placeholder : String.string)
    : list jsstring :=
  match items with [] => [js placeholder] | _ => items end.

(** *** Steps of the code variant only *)

Definition extractCode (marker : String.string) (responseText : jsstring)
    : jsstring :=
  match exec (fencePattern (js marker)) responseText with
  | Some m => trim (capture 1 m)
  | None => []
  end.

Definition mkIssue (m : MatchResult) : CodeIssue :=
  {| type := toLowerCase (capture 1 m);
     severity := toLowerCase (capture 2 m);
     line := match group 3 m with
             | Some (d :: ds) => Some (parseInt (d :: ds))
             | _ => None
             end;
     description := trim (capture 4 m);
     suggestion := trim (capture 5 m) |}.

Fixpoint issuesLoop (ls : list jsstring) : list CodeIssue :=
  match ls with
  | [] => []
  | l :: rest =>
      if startsWith l (js "-") || startsWith l [BULLET] then
        match exec issuePattern l with
        | Some m => mkIssue m :: issuesLoop rest
        | None => issuesLoop rest
        end
      else issuesLoop rest
  end.

Definition extractIssues (lines : list jsstring) : list CodeIssue :=
  match findIndex (isHeader "code_issues:") lines with
  | None => []
  | Some i => issuesLoop (skipn (S i) lines)
  end.

(** [...(s && { field: s })] *)
Definition whenNonEmpty (A : Type) (l : list A) : option (list A) :=
  match l with [] => None | _ => Some l end.

(** *** The [catch] blocks *)

(** [scoreMatch ? Math.min(parseInt(scoreMatch[1]), maxScore) : 50] *)
Definition fallbackScore (responseText : jsstring) (maxScore : Z) : Z :=
  match exec fallbackPattern responseText with
  | Some m => minWith (parseInt (capture 1 m)) maxScore
  | None => 50
  end.

Definition codeFallback (responseText : jsstring) (maxScore : Z)
    : AnalysisResult :=
  {| score := fallbackScore responseText maxScore;
     feedback := js "Code analysis completed but parsing encountered issues.";
     strengths := [js "Code provided for analysis"];
     improvements := [js "Consider simplifying the code structure"];
     category := None;
     correctedCode := None;
     optimizedCode := None;
     codeIssues := None |}.

Definition textFallback (responseText : jsstring) (maxScore : Z)
    : AnalysisResult :=
  {| score := fallbackScore responseText maxScore;
     feedback := js "Analysis completed but parsing encountered issues. Please check the raw response for details.";
     strengths := [js "Content provided for analysis"];
     improvements := [js "Consider simplifying the analysis request"];
     category := None;
     correctedCode := None;
     optimizedCode := None;
     codeIssues := None |}.

(** *** The [try] blocks *)

Definition codeFeedbackStops : list String.string :=
  ["strengths:"; "improvements:"; "corrected_code:"; "optimized_code:";
   "code_issues:"].
Definition codeStrengthsStops : list String.string :=
  ["improvements:"; "corrected_code:"; "optimized_code:"; "code_issues:"].
Definition codeImprovementsStops : list String.string :=
  ["corrected_code:"; "optimized_code:"; "code_issues:"].

Definition codeParse (responseText : jsstring) (maxScore : Z)
    : AnalysisResult :=
  let lines := splitLines responseText in
  {| score := scanScore maxScore 0 lines;
     feedback := orElse (extractFeedback codeFeedbackStops lines)
                        "Code analysis completed successfully";
     strengths := orPlaceholder
                    (extractSection "strengths:" codeStrengthsStops lines)
                    "Code structure is present";
     improvements := orPlaceholder
                    (extractSection "improvements:" codeImprovementsStops lines)
                    "Consider reviewing for best practices";
     category := extractCategory lines;
     correctedCode := whenNonEmpty (extractCode "CORRECTED_CODE:" responseText);
     optimizedCode := whenNonEmpty (extractCode "OPTIMIZED_CODE:" responseText);
     codeIssues := whenNonEmpty (extractIssues lines) |}.

Definition textFeedbackStops : list String.string :=
  ["strengths:"; "improvements:"; "score:"].
Definition textStrengthsStops : list String.string := ["improvements:"].
Definition textImprovementsStops : list String.string := [].

Definition textParse (responseText : jsstring) (maxScore : Z)
    : AnalysisResult :=
  let lines := splitLines responseText in
  {| score := scanScore maxScore 0 lines;
     feedback := orElse (extractFeedback textFeedbackStops lines)
                        "Analysis completed successfully";
     strengths := orPlaceholder
                    (extractSection "strengths:" textStrengthsStops lines)
                    "Text structure is present";
     improvements := orPlaceholder
                    (extractSection "improvements:" textImprovementsStops lines)
                    "Consider reviewing for clarity";
     category := extractCategory lines;
     correctedCode := None;
     optimizedCode := None;
     codeIssues := None |}.

(** *** The two functions

    Nothing in a [try] block raises on a string: [split], [trim], [match],
    [replace] and the rest are total.  What can raise is the host
    ([console.log], the pattern engine), and whether it does is not a
    function of the arguments; the outcome of the [try] block is therefore
    an argument of the model. *)
Inductive outcome := Completes | Throws.

Definition parseCodeAnalysisResponse (o : outcome) (responseText : jsstring)
    (maxScore : Z) : AnalysisResult :=
  match o with
  | Completes => codeParse responseText maxScore
  | Throws => codeFallback responseText maxScore
  end.

Definition parseAnalysisResponse (o : outcome) (responseText : jsstring)
    (maxScore : Z) : AnalysisResult :=
  match o with
  | Completes => textParse responseText maxScore
  | Throws => textFallback responseText maxScore
  end.

End Gemini.

(* ================================================================== *)
(** ** The [POST /summarize] handler of [routes/summarize.ts] *)
(* ================================================================== *)

Module Summarize.
Open Scope Z_scope.

(** What [req.body.text] can be after [express.json()].  A number is the
    double [m * 2^q]; an object or array carries nothing the handler reads. *)
Inductive value :=
| VUndefined                  (* the property is missing *)
| VNull
| VBool (b : bool)
| VNumber (m q : Z)
| VString (s : jsstring)
| VObject.

(** ToBoolean *)
Definition truthy (v : value) : bool :=
  match v with
  | VUndefined | VNull => false
  | VBool b => b
  | VNumber m _ => negb (m =? 0)
  | VString s => negb (isEmpty s)
  | VObject => true
  end.

(** A row of the [Summary] table. *)
Record Summary := {
  id : Z;
  inputText : value;
  outputText : jsstring;
  createdAt : Z
}.

Inductive body :=
| ErrorBody (error : jsstring)
| SummaryBody (saved : Summary).

Record response := { status : nat; json : body }.

(** The handler as a tree of its calls to the outside: each [await] is a
    node whose continuation receives [None] when the promise rejects. *)
Inductive handler :=
| Respond (r : response)
| SummarizeText (text : value) (k : option jsstring -> handler)
| SummaryCreate (inputText : value) (outputText : jsstring)
                (k : option Summary -> handler).

Definition serverError : handler :=
  Respond {| status := 500; json := ErrorBody (js "Something went wrong") |}.

(** [router.post('/summarize', async (req, res) => ...)] *)
Definition postSummarize (text : value) : handler :=
  if negb (truthy text) then
    Respond {| status := 400; json := ErrorBody (js "Text is required") |}
  else
    SummarizeText text (fun summary =>
      match summary with
      | None => serverError
      | Some summary =>
          SummaryCreate text summary (fun saved =>
            match saved with
            | None => serverError
            | Some saved => Respond {| status := 200; json := SummaryBody saved |}
            end)
      end).

(** The outside world: the AI client, as the answer it gives to a text,
    and the table, with the clock and the state of the connection. *)
Record world := {
  gemini : value -> option jsstring;
  table : list Summary;
  connected : bool;
  now : Z
}.

(** What a run of the handler leaves behind. *)
Record run_result := {
  aiCalls : list value;       (* the texts sent to the AI client *)
  finalTable : list Summary;
  sent : response
}.

Definition insert (w : world) (input : value) (output : jsstring)
    : option (Summary * world) :=
  if connected w then
    let row := {| id := Z.of_nat (length (table w)) + 1; inputText := input;
                  outputText := output; createdAt := now w |} in
    Some (row, {| gemini := gemini w; table := table w ++ [row];
                  connected := connected w; now := now w |})
  else None.

Fixpoint run (h : handler) (w : world) (calls : list value) : run_result :=
  match h with
  | Respond r => {| aiCalls := calls; finalTable := table w; sent := r |}
  | SummarizeText text k => run (k (gemini w text)) w (calls ++ [text])
  | SummaryCreate input output k =>
      match insert w input output with
      | Some (row, w') => run (k (Some row)) w' calls
      | None => run (k None) w calls
      end
  end.

End Summarize.

(* ================================================================== *)
(** ** [detectInputType] of [gemini.ts] *)
(* ================================================================== *)

Module Detect.

(** [String.prototype.includes] *)
Fixpoint includes (s sub : jsstring) : bool :=
  startsWith s sub ||
  match s with
  | [] => false
  | _ :: s' => includes s' sub
  end.

(** [a|b|...], tried from left to right. *)
Fixpoint alts (rs : list regex) : regex :=
  match rs with
  | [] => Cls (fun _ => false)
  | [r] => r
  | r :: rs' => Alt r (alts rs')
  end.

(** The alternatives that are plain words. *)
Definition words (ws : list String.string) : list regex :=
  map (fun w => lit (js w)) ws.

(** Every pattern of [codePatterns] is [^] followed by one group, under the
    [m] flag: [^] holds at the start of the input and right after a line
    terminator.  [p_re] below is the group; [testFrom] tries it at each of
    these offsets, [lineStart] telling whether the current one is such. *)
Fixpoint testFrom (ci : bool) (r : regex) (lineStart : bool) (pos : nat)
    (s : jsstring) : bool :=
  (lineStart &&
   match rmatch ci r pos s [] accept with Some _ => true | None => false end)
  || match s with
     | [] => false
     | x :: s' => testFrom ci r (isLineTerminator x) (S pos) s'
     end.

(** [pattern.test(inputText)] for a pattern [/^(...)/m] *)
Definition testMultiline (p : pattern) (s : jsstring) : bool :=
  testFrom (p_ci p) (p_re p) true 0 s.

Definition DQUOTE : N := 34.
Definition isLetterOrUnderscore (c : N) : bool :=      (* [a-zA-Z_] *)
  between 97 122 c || between 65 90 c || (c =? 95)%N.
Definition isWordOrDash (c : N) : bool :=              (* [\w-] *)
  isWordChar c || (c =? 45)%N.
Definition spaces : regex := Plus isSpace.             (* \s+ *)

(** [codePatterns], in the order of the array. *)
Definition codePatterns : list (pattern * String.string) :=
  [ (* /^(import|from|export|const|let|var|function|class)\s+/m *)
    ({| p_ci := false;
        p_re := seqs [Grp 1 (alts (words ["import"; "from"; "export"; "const";
                                          "let"; "var"; "function"; "class"]));
                      spaces] |}, "javascript");
    (* /^(def|class|import|from|if __name__|print\()/m *)
    ({| p_ci := false;
        p_re := Grp 1 (alts (words ["def"; "class"; "import"; "from";
                                    "if __name__"; "print("])) |}, "python");
    (* /^(#include|using namespace|int main\(|cout|cin)/m *)
    ({| p_ci := false;
        p_re := Grp 1 (alts (words ["#include"; "using namespace";
                                    "int main("; "cout"; "cin"])) |}, "cpp");
    (* /^(public class|private|public|import java)/m *)
    ({| p_ci := false;
        p_re := Grp 1 (alts (words ["public class"; "private"; "public";
                                    "import java"])) |}, "java");
    (* /^(SELECT|INSERT|UPDATE|DELETE|CREATE TABLE)/im *)
    ({| p_ci := true;
        p_re := Grp 1 (alts (words ["SELECT"; "INSERT"; "UPDATE"; "DELETE";
                                    "CREATE TABLE"])) |}, "sql");
    (* /^(<\?php|\$[a-zA-Z_]|echo|print)/m *)
    ({| p_ci := false;
        p_re := Grp 1 (alts [lit (js "<?php");
                             seqs [Chr 36; Cls isLetterOrUnderscore];
                             lit (js "echo"); lit (js "print")]) |}, "php");
    (* /^(package|func|var|import Q|type\s+\w+\s+struct)/m, where Q stands
       for the escaped double quote of the source *)
    ({| p_ci := false;
        p_re := Grp 1 (alts [lit (js "package"); lit (js "func");
                             lit (js "var"); lit (js "import " ++ [DQUOTE]);
                             seqs [lit (js "type"); spaces; Plus isWordChar;
                                   spaces; lit (js "struct")]]) |}, "go");
    (* /^(fn|let|mut|use|struct|impl)/m *)
    ({| p_ci := false;
        p_re := Grp 1 (alts (words ["fn"; "let"; "mut"; "use"; "struct";
                                    "impl"])) |}, "rust");
    (* /^(<html|<div|<script|<!DOCTYPE)/im *)
    ({| p_ci := true;
        p_re := Grp 1 (alts (words ["<html"; "<div"; "<script";
                                    "<!DOCTYPE"])) |}, "html");
    (* /^(\.|#|@media|body\s*{|\.[\w-]+\s*{)/m *)
    ({| p_ci := false;
        p_re := Grp 1 (alts [Chr 46; Chr 35; lit (js "@media");
                             seqs [lit (js "body"); Star isSpace; Chr 123];
                             seqs [Chr 46; Plus isWordOrDash; Star isSpace;
                                   Chr 123]]) |}, "css") ].

(** [/[{}();]/.test(inputText)] *)
Definition isCodePunctuation (c : N) : bool :=
  ((c =? 123) || (c =? 125) || (c =? 40) || (c =? 41) || (c =? 59))%N.

Definition codeKeywords : list String.string :=
  ["function"; "class"; "const"; "def"; "public"; "private"].

Definition hasCodeStructure (inputText : jsstring) : bool :=
  existsb isCodePunctuation inputText &&
  existsb (fun w => includes inputText (js w)) codeKeywords.

Record detection := { isCode : bool; language : jsstring }.

(** The loop over [codePatterns]: the language of the first pattern that
    tests true. *)
Fixpoint firstSignature (ps : list (pattern * String.string))
    (inputText : jsstring) : option String.string :=
  match ps with
  | [] => None
  | (p, lang) :: ps' =>
      if testMultiline p inputText then Some lang
      else firstSignature ps' inputText
  end.

Definition detectInputType (inputText : jsstring) : detection :=
  match firstSignature codePatterns inputText with
  | Some lang => {| isCode := true; language := js lang |}
  | None => {| isCode := hasCodeStructure inputText;
               language := js "javascript" |}
  end.

End Detect.

(* ================================================================== *)
(** ** [analyzeText], its wrappers, and the [POST /analyze] route *)
(* ================================================================== *)

Module Analyze.
Import Gemini Detect.
Open Scope Z_scope.

(** [interface AnalysisOptions]; [None] is a property left out. *)
Record AnalysisOptions := {
  criteria : option jsstring;
  maxScore : option Z;
  focusAreas : option (list jsstring);
  optLanguage : option jsstring;       (* [language] *)
  analysisType : option jsstring
}.

(** [{}] *)
Definition noOptions : AnalysisOptions :=
  {| criteria := None; maxScore := None; focusAreas := None;
     optLanguage := None; analysisType := None |}.

(** The prompt handed to the AI client, kept as the call that builds it:
    [buildCodeAnalysisPrompt(inputCode, maxScore, focusAreas, language,
    analysisType)] or [buildAnalysisPrompt(inputText, criteria, maxScore,
    focusAreas)]. *)
Inductive prompt :=
| CodePrompt (inputCode : jsstring) (maxScore : Z) (focusAreas : list jsstring)
             (language : jsstring) (analysisType : jsstring)
| TextPrompt (inputText : jsstring) (criteria : jsstring) (maxScore : Z)
             (focusAreas : list jsstring).

(** A thrown value: an [Error] with its message, something that is not an
    [Error], or the engine's [TypeError] for [undefined.trim]. *)
Inductive thrown :=
| ErrorWith (message : jsstring)
| NotAnError
| TypeErrorOnUndefined.

(** What [model.generateContent(prompt)] and [response.text()] give: the
    reply, a result without a response, or an exception. *)
Inductive answer :=
| Reply (text : jsstring)
| NoResponse
| Raises (e : thrown).

(** The message of the [Error] that [analyzeText] throws; the text of the
    engine's [TypeError] is not fixed by the code. *)
Inductive errorText :=
| Known (s : jsstring)
| FollowedByEngineText (s : jsstring).

(** [`Failed to analyze text: ${error instanceof Error ? error.message
    : 'Unknown error'}`] *)
Definition failedToAnalyze (e : thrown) : errorText :=
  match e with
  | ErrorWith message => Known (js "Failed to analyze text: " ++ message)
  | NotAnError => Known (js "Failed to analyze text: Unknown error")
  | TypeErrorOnUndefined => FollowedByEngineText (js "Failed to analyze text: ")
  end.

(** An [async] function as the tree of its calls to the AI client. *)
Inductive task :=
| Resolve (r : AnalysisResult)
| Reject (e : errorText)
| GenerateContent (p : prompt) (k : answer -> task).

(** [x || y] on strings, [x] possibly left out. *)
Definition orString (x : option jsstring) (y : jsstring) : jsstring :=
  match x with
  | Some (c :: s) => c :: s
  | _ => y
  end.

Definition withDefault (A : Type) (x : option A) (d : A) : A :=
  match x with Some v => v | None => d end.

Definition isCodeCriteria (c : option jsstring) : bool :=
  match c with
  | Some s => if list_eq_dec N.eq_dec s (js "code") then true else false
  | None => false
  end.

(** [analyzeText(inputText, options)]; [o] is the outcome of the parser's
    [try] block. *)
Definition analyzeText (o : outcome) (inputText : jsstring)
    (options : AnalysisOptions) : task :=
  if isEmpty (trim inputText) then
    Reject (failedToAnalyze (ErrorWith (js "Input text cannot be empty")))
  else
    let detection := detectInputType inputText in
    let isCodeInput := isCode detection || isCodeCriteria (criteria options) in
    let detectedLanguage := orString (optLanguage options) (language detection) in
    let criteria := withDefault (criteria options)
                      (if isCodeInput then js "code" else js "general") in
    let maxScore := withDefault (maxScore options) 100 in
    let focusAreas := withDefault (focusAreas options) [] in
    let analysisType := withDefault (analysisType options) (js "all") in
    let prompt :=
      if isCodeInput
      then CodePrompt inputText maxScore focusAreas detectedLanguage analysisType
      else TextPrompt inputText criteria maxScore focusAreas in
    GenerateContent prompt (fun a =>
      match a with
      | Raises e => Reject (failedToAnalyze e)
      | NoResponse =>
          Reject (failedToAnalyze
                    (ErrorWith (js "No response received from Gemini")))
      | Reply analysisText =>
          Resolve (if isCodeInput
                   then parseCodeAnalysisResponse o analysisText maxScore
                   else parseAnalysisResponse o analysisText maxScore)
      end).

(** The convenience functions. *)
Definition withCriteria (c : String.string) : AnalysisOptions :=
  {| criteria := Some (js c); maxScore := None; focusAreas := None;
     optLanguage := None; analysisType := None |}.

Definition analyzeWriting o text := analyzeText o text (withCriteria "writing").
Definition analyzeAcademicWork o text :=
  analyzeText o text (withCriteria "academic").
Definition analyzeBusinessDocument o text :=
  analyzeText o text (withCriteria "business").
Definition analyzeCreativeWork o text :=
  analyzeText o text (withCriteria "creative").

Definition codeOptions (language : option jsstring) (t : String.string)
    : AnalysisOptions :=
  {| criteria := Some (js "code"); maxScore := None; focusAreas := None;
     optLanguage := language; analysisType := Some (js t) |}.

Definition analyzeCode o code language :=
  analyzeText o code (codeOptions language "analyze").
Definition correctCode o code language :=
  analyzeText o code (codeOptions language "correct").
Definition optimizeCode o code language :=
  analyzeText o code (codeOptions language "optimize").
Definition fullCodeAnalysis o code language :=
  analyzeText o code (codeOptions language "all").

(** The AI client, as the answer it gives to a prompt. *)
Definition client := prompt -> answer.

Inductive settled :=
| Resolved (r : AnalysisResult)
| Rejected (e : errorText).

(** A run of a task: the prompts sent, in order, and how it settles. *)
Fixpoint runTask (t : task) (gemini : client) (calls : list prompt)
    : list prompt * settled :=
  match t with
  | Resolve r => (calls, Resolved r)
  | Reject e => (calls, Rejected e)
  | GenerateContent p k => runTask (k (gemini p)) gemini (calls ++ [p])
  end.

(** [routes/analyze.ts]: the decoded body that the handler reads, with
    [text] a string and [options] an [AnalysisOptions] object, each
    possibly left out. *)
Record analyzeRequest := {
  text : option jsstring;
  options : option AnalysisOptions
}.

Inductive analyzeBody :=
| ResultBody (r : AnalysisResult)
| ErrorBody (error : errorText).

Record analyzeResponse := { status : nat; json : analyzeBody }.

(** The handler of [router.post('/analyze', ...)].  Without [text],
    [analyzeText] raises inside its own [try] block, at [inputText.trim()],
    before any call to the AI client; [options] left out is the default
    [{}]. *)
Definition postAnalyze (o : outcome) (req : analyzeRequest) (gemini : client)
    : list prompt * analyzeResponse :=
  let run :=
    match text req with
    | None => ([], Rejected (failedToAnalyze TypeErrorOnUndefined))
    | Some t =>
        runTask (analyzeText o t (withDefault (options req) noOptions))
                gemini []
    end in
  match snd run with
  | Resolved r => (fst run, {| status := 200; json := ResultBody r |})
  | Rejected e => (fst run, {| status := 500; json := ErrorBody e |})
  end.

End Analyze.

(* ================================================================== *)
(** ** Vocabulary of the statements *)
(* ================================================================== *)

Module Words.

(** [litPrefix ci pat s]: [s] begins with the literal [pat], up to letter
    case when [ci] is set. *)
Fixpoint litPrefix (ci : bool) (pat s : jsstring) : bool :=
  match pat, s with
  | [], _ => true
  | a :: pat', x :: s' => chrEq ci a x && litPrefix ci pat' s'
  | _ :: _, [] => false
  end.

(** [spelled pat w]: [w] is [pat] in some mix of ASCII capitals and small
    letters. *)
Definition spelled (pat w : jsstring) : Prop :=
  length w = length pat /\ litPrefix true pat w = true.

(** [body] is a run of lines none of which starts one of [stops], and the
    run ends at such a line or at the end of the reply. *)
Definition sectionEnds (stops : list String.string)
    (body tail : list jsstring) : Prop :=
  (forall x, In x body -> Gemini.isAnyHeader stops x = false) /\
  match tail with
  | [] => True
  | s :: _ => Gemini.isAnyHeader stops s = true
  end.

(** [hdr] is the first line of [lines] that starts [marker], and [body] is
    the run of lines after it up to the first line that starts one of
    [stops]. *)
Definition sectionAt (marker : String.string) (stops : list String.string)
    (lines : list jsstring) (hdr : jsstring) (body : list jsstring) : Prop :=
  exists pre tail,
    lines = pre ++ hdr :: body ++ tail /\
    (forall x, In x pre -> Gemini.isHeader marker x = false) /\
    Gemini.isHeader marker hdr = true /\
    sectionEnds stops body tail.

(** A line that begins with [-] or with the bullet. *)
Definition isDashed (l : jsstring) : bool :=
  startsWith l (js "-") || startsWith l [BULLET].

(** A line that begins with a number and a dot. *)
Definition isNumbered (l : jsstring) : bool :=
  match l with
  | c :: _ => isDigit c && startsWith (dropWhile isDigit l) (js ".")
  | [] => false
  end.

Definition bulletStyle (l : jsstring) : bool := isDashed l || isNumbered l.

(** What is kept of a bullet line: the line without its longest prefix of
    characters among [-], the bullet, digits, [.] and white space, trimmed. *)
Definition itemOf (l : jsstring) : jsstring :=
  trim (dropWhile Gemini.isMarkerChar l).

Definition itemsOf (body : list jsstring) : list jsstring :=
  map itemOf (filter bulletStyle body).

(** The loop of a section finds no bullet line: no line starts [marker],
    or none of the lines of the section is in bullet style. *)
Definition nothingCollected (marker : String.string)
    (stops : list String.string) (lines : list jsstring) : Prop :=
  (forall x, In x lines -> Gemini.isHeader marker x = false) \/
  (exists hdr body,
     sectionAt marker stops lines hdr body /\
     forall x, In x body -> bulletStyle x = false).

(** [text] holds, at the first place where [marker] is spelled, the marker,
    white space, an opening fence with a tag of word characters, a line
    feed, [inner], and the first closing fence after it. *)
Definition fencedBlock (marker text inner : jsstring) : Prop :=
  exists pre w gap tag post,
    text = pre ++ w ++ gap ++ Gemini.FENCE ++ tag ++ [LF] ++ inner
               ++ Gemini.FENCE ++ post /\
    spelled marker w /\
    (forall i, (i < length pre)%nat ->
               litPrefix true marker (skipn i text) = false) /\
    forallb isSpace gap = true /\
    forallb isWordChar tag = true /\
    (forall i, (i < length inner)%nat ->
               startsWith (skipn i (inner ++ Gemini.FENCE ++ post))
                          Gemini.FENCE = false).

(** A number that is not negative. *)
Definition nonneg (x : Num.number) : Prop :=
  match x with Num.Finite m _ => (0 <= m)%Z | Num.PosInf => True end.

(** [k] is the integer nearest to the finite value [x = m * 2^q], a half
    going up: [k - 1/2 <= x < k + 1/2], written over the integers. *)
Definition nearestInteger (x : Num.number) (k : Z) : Prop :=
  match x with
  | Num.Finite m q =>
      ((2 * k - 1) * 2 ^ Z.max 0 (- q) <= 2 * m * 2 ^ Z.max 0 q
       < (2 * k + 1) * 2 ^ Z.max 0 (- q))%Z
  | Num.PosInf => False
  end.

(** [v] is [min(round(x), maxScore)]: the integer nearest to [x] or
    [maxScore], whichever is smaller, and [maxScore] when [x] is infinite. *)
Definition roundedAndCapped (x : Num.number) (maxScore v : Z) : Prop :=
  match x with
  | Num.PosInf => v = maxScore
  | Num.Finite _ _ => exists k, nearestInteger x k /\ v = Z.min k maxScore
  end.

(** The markers that open a section of the reply layout. *)
Definition sectionMarkers : list String.string :=
  ["score:"; "category:"; "feedback:"; "strengths:"; "improvements:";
   "corrected_code:"; "optimized_code:"; "code_issues:"].

End Words.
Import Words.

(* ================================================================== *)
(** ** Sample replies and requests *)
(* ================================================================== *)

Module Samples.
Import Num Gemini Summarize.
Open Scope Z_scope.

Definition feedbackReply : jsstring :=
  unlines ["SCORE: 5"; "Feedback:  ok then"; "more"; "CATEGORY: x";
           "STRENGTHS:"; "- a"].

Definition strengthsReply : jsstring :=
  unlines ["STRENGTHS:"; "- clear names"; "some prose"; "2. 3 tests";
           "IMPROVEMENTS:"; "- shorten"].

Definition proseOnlyReply : jsstring :=
  unlines ["FEEDBACK: fine"; "STRENGTHS:"; "nothing stands out";
           "IMPROVEMENTS:"; "- shorten"].

Definition issuesReply : jsstring :=
  unlines ["CODE_ISSUES:";
           "- TYPE: Logic | SEVERITY: HIGH | LINE: 3 | DESCRIPTION: off by one | SUGGESTION: use <";
           "- no fields here";
           "TYPE: style | SEVERITY: low | DESCRIPTION: d | SUGGESTION: s"].

Definition loggedIssue : CodeIssue :=
  {| type := js "logic"; line := Some (parseInt (js "3"));
     description := js "off by one"; severity := js "high";
     suggestion := js "use <" |}.

Definition fencedReply : jsstring :=
  unlines ["ok"; "Corrected_Code:"; "```js"; "  let x = 1;"; "```"; "done"].

Definition emptyBlockReply : jsstring :=
  unlines ["CORRECTED_CODE:"; "```js"; "   "; "```"; "CODE_ISSUES:";
           "- nothing to report"].

Definition oneRowWorld : world :=
  {| gemini := fun _ => Some (js "Hi.");
     table := [ {| id := 1; inputText := VString (js "hello");
                   outputText := js "Hi."; createdAt := 1700 |} ];
     connected := true; now := 1800 |}.

End Samples.
Import Samples.

(* ================================================================== *)
(** ** More vocabulary: runs, fields, line ends *)
(* ================================================================== *)

Module MoreWords.

(** A pattern without capturing groups. *)
Fixpoint groupFree (r : regex) : bool :=
  match r with
  | Grp _ _ => false
  | Seq r1 r2 | Alt r1 r2 => groupFree r1 && groupFree r2
  | Opt r1 => groupFree r1
  | _ => true
  end.

(** The offset after [pre] is the start of a line. *)
Definition endsLine (pre : jsstring) : bool := isLineTerminator (last pre LF).

(** A run of decimal digits that is not empty. *)
Definition isNumeral (ds : jsstring) : bool :=
  negb (isEmpty ds) && forallb isDigit ds.

(** [rest] does not go on with a character of the class [p]. *)
Definition stopsAt (p : N -> bool) (rest : jsstring) : Prop :=
  match rest with [] => True | c :: _ => p c = false end.

(** Small letters, [:] and [_]: what the section markers are made of. *)
Definition isMarkerLetter (a : N) : bool :=
  between 97 122 a || (a =? 58)%N || (a =? 95)%N.


(** A line of [CODE_ISSUES:] in the layout that the prompt asks for, with
    its five fields. *)
Definition issueLine (ty sev ln d sg : jsstring) : jsstring :=
  js "- " ++ js "TYPE:" ++ js " " ++ ty ++ js " " ++ [Gemini.PIPE] ++ js " "
  ++ js "SEVERITY:" ++ js " " ++ sev ++ js " " ++ [Gemini.PIPE] ++ js " "
  ++ js "LINE:" ++ js " " ++ ln ++ js " " ++ [Gemini.PIPE] ++ js " "
  ++ js "DESCRIPTION:" ++ js " " ++ d ++ js " " ++ [Gemini.PIPE] ++ js " "
  ++ js "SUGGESTION:" ++ js " " ++ sg.

(** A field: not empty, made of characters of the class [p], and not
    beginning with white space. *)
Definition isField (p : N -> bool) (s : jsstring) : Prop :=
  s <> [] /\ forallb p s = true /\ stopsAt isSpace s.

(** Two lines that differ at most by a carriage return at the end. *)
Definition sameUpToCR (l' l : jsstring) : Prop := l' = l \/ l' = l ++ [13%N].

End MoreWords.
Import MoreWords.

(** Expose one field of a parser's result. *)
Ltac open_parse :=
  unfold Gemini.parseAnalysisResponse, Gemini.parseCodeAnalysisResponse,
    Gemini.textParse,
    Gemini.codeParse, Gemini.textFallback, Gemini.codeFallback,
    Gemini.textFeedbackStops,
    Gemini.codeFeedbackStops, Gemini.textStrengthsStops,
    Gemini.codeStrengthsStops,
    Gemini.textImprovementsStops, Gemini.codeImprovementsStops;
  cbn [Gemini.score Gemini.feedback Gemini.strengths Gemini.improvements
       Gemini.category Gemini.correctedCode Gemini.optimizedCode
       Gemini.codeIssues].

(* ================================================================== *)
(** ** Facts about strings and the matcher *)
(* ================================================================== *)

Module RegexFacts.

Lemma dropWhile_app_stop p (a b : jsstring) :
  forallb p a = true ->
  match b with [] => True | x :: _ => p x = false end ->
  dropWhile p (a ++ b) = b /\ takeWhile p (a ++ b) = a.
Proof.
  intros Ha Hb. induction a as [|x a IH]; simpl in *.
  - destruct b as [|y b]; simpl; [easy|]. now rewrite Hb.
  - apply andb_prop in Ha as [Hx Ha]. rewrite Hx.
    destruct (IH Ha) as [-> ->]. easy.
Qed.

Lemma rmatch_lit ci pat : forall pos s c k,
  rmatch ci (lit pat) pos s c k =
  if litPrefix ci pat s then k (pos + length pat)%nat (skipn (length pat) s) c
  else None.
Proof.
  induction pat as [|a pat IH]; intros pos s c k; simpl.
  - now rewrite Nat.add_0_r.
  - destruct s as [|x s]; [reflexivity|].
    destruct (chrEq ci a x); simpl; [|reflexivity].
    rewrite IH. now rewrite Nat.add_succ_r.
Qed.

Lemma litPrefix_app ci pat w rest :
  length w = length pat -> litPrefix ci pat w = true ->
  litPrefix ci pat (w ++ rest) = true /\ skipn (length pat) (w ++ rest) = rest.
Proof.
  revert w. induction pat as [|a pat IH]; intros [|x w] Hl H; simpl in *;
    try discriminate; [easy|].
  apply andb_prop in H as [-> H]. simpl. apply IH; [lia|assumption].
Qed.

(** A greedy star first tries the longest run. *)
Lemma starGreedy_max p k r : forall s pos c,
  k (pos + length (takeWhile p s))%nat (dropWhile p s) c = Some r ->
  starGreedy p pos s c k = Some r.
Proof.
  induction s as [|x s IH]; intros pos c H; simpl in *.
  - now rewrite Nat.add_0_r in H.
  - destruct (p x); simpl in H.
    + rewrite (IH (S pos) c); [reflexivity|].
      now rewrite Nat.add_succ_r in H.
    + now rewrite Nat.add_0_r in H.
Qed.

(** When what follows cannot start on a character of the class, a greedy
    star takes the longest run or fails. *)
Lemma starGreedy_strict p k :
  (forall pos x s c, p x = true -> k pos (x :: s) c = None) ->
  forall s pos c,
  starGreedy p pos s c k =
  k (pos + length (takeWhile p s))%nat (dropWhile p s) c.
Proof.
  intros Hk. induction s as [|x s IH]; intros pos c; simpl.
  - now rewrite Nat.add_0_r.
  - destruct (p x) eqn:Hx; simpl.
    + rewrite IH, Nat.add_succ_r.
      destruct (k _ _ c) eqn:E; [reflexivity|]. now apply Hk.
    + now rewrite Nat.add_0_r.
Qed.

(** With nothing after it that can fail, a greedy star takes the longest
    run. *)
Lemma starGreedy_accept p : forall s pos c,
  starGreedy p pos s c accept =
  Some ((pos + length (takeWhile p s))%nat, dropWhile p s, c).
Proof.
  intros. now apply starGreedy_max.
Qed.

(** A lazy star stops at the first offset where the rest matches. *)
Lemma starLazy_first p k r : forall inner rest pos c,
  forallb p inner = true ->
  (forall i, (i < length inner)%nat ->
             k (pos + i)%nat (skipn i (inner ++ rest)) c = None) ->
  k (pos + length inner)%nat rest c = Some r ->
  starLazy p pos (inner ++ rest) c k = Some r.
Proof.
  induction inner as [|x inner IH]; intros rest pos c Hp Hnone Hk.
  - simpl in *. rewrite Nat.add_0_r in Hk.
    destruct rest; simpl; now rewrite Hk.
  - simpl in Hp. apply andb_prop in Hp as [Hx Hp].
    simpl. specialize (Hnone 0%nat) as H0. simpl in H0.
    rewrite Nat.add_0_r in H0. rewrite H0 by lia. rewrite Hx.
    apply IH; [assumption| |].
    + intros i Hi. specialize (Hnone (S i)). simpl in Hnone.
      rewrite Nat.add_succ_r in Hnone. apply Hnone. lia.
    + simpl in Hk. now rewrite Nat.add_succ_r in Hk.
Qed.

(** The search passes over the offsets where the pattern fails. *)
Lemma search_skip ci r : forall pre s pos,
  (forall i, (i < length pre)%nat ->
             rmatch ci r (pos + i) (skipn i (pre ++ s)) [] accept = None) ->
  search ci r pos (pre ++ s) = search ci r (pos + length pre) s.
Proof.
  induction pre as [|x pre IH]; intros s pos H; simpl.
  - now rewrite Nat.add_0_r.
  - specialize (H 0%nat) as H0. simpl in H0. rewrite Nat.add_0_r in H0.
    rewrite H0 by lia. rewrite IH, Nat.add_succ_r; [reflexivity|].
    intros i Hi. specialize (H (S i)). simpl in H.
    rewrite Nat.add_succ_r in H. apply H. lia.
Qed.

(** A pattern anchored by [^] matches at offset 0 or nowhere. *)
Lemma search_bol ci r : forall s pos,
  search ci (Seq Bol r) (S pos) s = None.
Proof.
  induction s as [|x s IH]; intros pos; simpl; [reflexivity|apply IH].
Qed.

Lemma exec_bol ci r s :
  exec {| p_ci := ci; p_re := Seq Bol r |} s =
  match rmatch ci r 0 s [] accept with
  | Some (_, rest, c) => Some {| m_index := 0; m_rest := rest; m_caps := c |}
  | None => None
  end.
Proof.
  unfold exec. simpl p_ci. simpl p_re.
  destruct s as [|x s]; simpl.
  - destruct (rmatch ci r 0 [] [] accept) as [[[? ?] ?]|]; reflexivity.
  - destruct (rmatch ci r 0 (x :: s) [] accept) as [[[? ?] ?]|];
      [reflexivity|apply search_bol].
Qed.

(** A match at the current offset is the one the search returns. *)
Lemma search_here ci r pos s e rest c :
  rmatch ci r pos s [] accept = Some (e, rest, c) ->
  search ci r pos s = Some {| m_index := pos; m_rest := rest; m_caps := c |}.
Proof. intros H. destruct s; simpl; now rewrite H. Qed.

Lemma search_nowhere_bol ci r s :
  rmatch ci (Seq Bol r) 0 s [] accept = None ->
  search ci (Seq Bol r) 0 s = None.
Proof.
  intros H. destruct s as [|x s]; cbn [search]; rewrite H;
    [reflexivity|apply search_bol].
Qed.

End RegexFacts.

(* ================================================================== *)
(** ** Facts about the numbers *)
(* ================================================================== *)

Module NumFacts.
Import Num.
Open Scope Z_scope.

Lemma roundNearestEven_nonneg a b :
  0 <= a -> 0 < b -> 0 <= roundNearestEven a b.
Proof.
  intros Ha Hb. unfold roundNearestEven.
  assert (0 <= a / b) by (apply Z.div_pos; lia).
  repeat match goal with |- context [if ?t then _ else _] => destruct t end;
    lia.
Qed.

Lemma toDouble_nonneg n d : 0 < d -> nonneg (toDouble n d).
Proof.
  intros Hd. unfold toDouble.
  destruct (n <=? 0) eqn:Hn; [simpl; lia|].
  apply Z.leb_gt in Hn.
  set (q := Z.max _ _).
  assert (Hm : 0 <= (if 0 <=? q then roundNearestEven n (d * 2 ^ q)
                     else roundNearestEven (n * 2 ^ (- q)) d)).
  { destruct (0 <=? q) eqn:Hq.
    - apply Z.leb_le in Hq. apply roundNearestEven_nonneg; [lia|].
      apply Z.mul_pos_pos; [lia|]. apply Z.pow_pos_nonneg; lia.
    - apply roundNearestEven_nonneg; [|lia].
      apply Z.mul_nonneg_nonneg; [lia|]. apply Z.pow_nonneg. lia. }
  destruct (_ =? 0); [simpl; lia|].
  destruct (1024 <=? _); simpl; [exact I|exact Hm].
Qed.

Lemma round_nonneg x : nonneg x -> nonneg (round x).
Proof.
  destruct x as [m q|]; simpl; [|easy]. intros Hm.
  destruct (0 <=? q) eqn:Hq; simpl; [assumption|].
  apply Z.leb_gt in Hq. apply Z.div_pos.
  - assert (0 <= 2 ^ (- q - 1)) by (apply Z.pow_nonneg; lia). lia.
  - apply Z.pow_pos_nonneg; lia.
Qed.

Lemma integerValue_nonneg m q : 0 <= m -> 0 <= integerValue m q.
Proof.
  intros Hm. unfold integerValue. destruct (0 <=? q) eqn:Hq.
  - apply Z.mul_nonneg_nonneg; [lia|]. apply Z.pow_nonneg. lia.
  - apply Z.leb_gt in Hq. apply Z.div_pos; [lia|].
    apply Z.pow_pos_nonneg; lia.
Qed.

Lemma minWith_bounds x maxScore :
  0 < maxScore -> nonneg x -> 0 <= minWith x maxScore <= maxScore.
Proof.
  intros HM Hx. destruct x as [m q|]; simpl in *; [|lia].
  pose proof (integerValue_nonneg q Hx). lia.
Qed.

Lemma parseFloat_nonneg s : nonneg (parseFloat s).
Proof.
  unfold parseFloat. apply toDouble_nonneg.
  apply Z.pow_pos_nonneg; lia.
Qed.

Lemma parseInt_nonneg s : nonneg (parseInt s).
Proof. unfold parseInt. apply toDouble_nonneg. lia. Qed.

(** A finite value has one nearest integer. *)
Lemma nearestInteger_unique x k k' :
  nearestInteger x k -> nearestInteger x k' -> k = k'.
Proof.
  destruct x as [m q|]; unfold nearestInteger; [|easy].
  assert (Hp : 0 < 2 ^ Z.max 0 (- q)) by (apply Z.pow_pos_nonneg; lia).
  generalize dependent (2 ^ Z.max 0 (- q)). intros A Hp.
  generalize (2 * m * 2 ^ Z.max 0 q). intros X [H1 H2] [H3 H4].
  assert (H5 : (2 * k - 1) * A < (2 * k' + 1) * A) by lia.
  assert (H6 : (2 * k' - 1) * A < (2 * k + 1) * A) by lia.
  apply Z.mul_lt_mono_pos_r in H5, H6; lia.
Qed.

(** [Math.min(Math.round(x), maxScore)] is the nearest integer to [x],
    a half going up, capped by [maxScore]. *)
Lemma minWith_round x maxScore :
  roundedAndCapped x maxScore (minWith (round x) maxScore).
Proof.
  destruct x as [m q|]; [|reflexivity].
  unfold roundedAndCapped, nearestInteger, round.
  destruct (Z.leb_spec 0 q) as [Hq|Hq].
  - exists (m * 2 ^ q). unfold minWith, integerValue.
    destruct (Z.leb_spec 0 q); [|lia].
    rewrite Z.max_l, Z.max_r by lia. change (2 ^ 0) with 1.
    split; [lia|reflexivity].
  - exists ((m + 2 ^ (- q - 1)) / 2 ^ (- q)). unfold minWith, integerValue.
    change (0 <=? 0) with true. cbv iota. change (2 ^ 0) with 1.
    rewrite Z.mul_1_r. split; [|reflexivity].
    rewrite Z.max_r, Z.max_l by lia. change (2 ^ 0) with 1.
    assert (Hh : 0 < 2 ^ (- q - 1)) by (apply Z.pow_pos_nonneg; lia).
    assert (HB : 2 ^ (- q) = 2 * 2 ^ (- q - 1)).
    { rewrite <- Z.pow_succ_r by lia. f_equal. lia. }
    rewrite HB.
    set (h := 2 ^ (- q - 1)) in *.
    pose proof (Z.div_mod (m + h) (2 * h) ltac:(lia)) as Hd.
    pose proof (Z.mod_pos_bound (m + h) (2 * h) ltac:(lia)) as Hb.
    set (k := (m + h) / (2 * h)) in *. nia.
Qed.

End NumFacts.

(* ================================================================== *)
(** ** The score *)
(* ================================================================== *)

Module ScoreFacts.
Import Num NumFacts Gemini RegexFacts.
Open Scope Z_scope.

Lemma lineScore_bounds maxScore m :
  0 < maxScore -> 0 <= lineScore maxScore m <= maxScore.
Proof.
  intros H. unfold lineScore. apply minWith_bounds; [assumption|].
  apply round_nonneg, parseFloat_nonneg.
Qed.

Lemma scanScore_bounds maxScore : 0 < maxScore ->
  forall lines score, 0 <= score <= maxScore ->
  0 <= scanScore maxScore score lines <= maxScore.
Proof.
  intros HM. induction lines as [|l rest IH]; intros score Hs;
    cbn [scanScore].
  - assumption.
  - set (score' := match tryPatterns scorePatterns l with
                   | Some m => lineScore maxScore m | None => score end).
    assert (Hs' : 0 <= score' <= maxScore).
    { subst score'. destruct (tryPatterns scorePatterns l);
        [now apply lineScore_bounds|assumption]. }
    destruct (0 <? score'); [assumption|now apply IH].
Qed.

Lemma scanScore_no_match maxScore : forall lines,
  (forall l, In l lines -> tryPatterns scorePatterns l = None) ->
  scanScore maxScore 0 lines = 0.
Proof.
  induction lines as [|l rest IH]; intros H; cbn [scanScore]; [reflexivity|].
  rewrite (H l) by now left. simpl. apply IH.
  intros x Hx. apply H. now right.
Qed.

(** The pattern of the [catch] block matches exactly the replies that
    contain a decimal digit. *)
Lemma starGreedy_total p k :
  (forall pos s c, k pos s c <> None) ->
  forall s pos c, starGreedy p pos s c k <> None.
Proof.
  intros Hk. induction s as [|x s IH]; intros pos c; simpl; [apply Hk|].
  destruct (p x); [|apply Hk].
  destruct (starGreedy p (S pos) s c k) eqn:E; [discriminate|].
  now apply IH in E.
Qed.

Lemma fallback_search_digit : forall s pos,
  existsb isDigit s = true ->
  search (p_ci fallbackPattern) (p_re fallbackPattern) pos s <> None.
Proof.
  induction s as [|x s IH]; intros pos H; [discriminate|].
  cbn [search].
  match goal with |- context [rmatch ?ci ?r ?p ?i ?c ?k] =>
    destruct (rmatch ci r p i c k) as [[[e rest] caps]|] eqn:E end;
    [discriminate|].
  simpl in H. destruct (isDigit x) eqn:Hx.
  - exfalso. revert E. cbn [fallbackPattern p_re p_ci seqs fold_right rmatch digits].
    rewrite Hx. apply starGreedy_total. intros pos' s' c'.
    match goal with |- match ?t with _ => _ end <> None =>
      destruct t; discriminate end.
  - apply IH. exact H.
Qed.

Lemma fallback_search_no_digit : forall s pos,
  existsb isDigit s = false ->
  search (p_ci fallbackPattern) (p_re fallbackPattern) pos s = None.
Proof.
  induction s as [|x s IH]; intros pos H; [reflexivity|].
  simpl in H. apply orb_false_elim in H as [Hx H].
  cbn [search fallbackPattern p_re p_ci seqs fold_right rmatch digits].
  rewrite Hx. apply IH, H.
Qed.

Lemma fallbackScore_no_digit text maxScore :
  existsb isDigit text = false -> fallbackScore text maxScore = 50.
Proof.
  intros H. unfold fallbackScore, exec.
  now rewrite fallback_search_no_digit.
Qed.

Lemma fallbackScore_digit text maxScore :
  0 < maxScore -> existsb isDigit text = true ->
  0 <= fallbackScore text maxScore <= maxScore.
Proof.
  intros HM H. unfold fallbackScore, exec.
  destruct (search _ _ 0 text) eqn:E.
  - apply minWith_bounds; [assumption|apply parseInt_nonneg].
  - now apply fallback_search_digit in E.
Qed.

Lemma fallbackScore_range text maxScore :
  0 < maxScore -> 0 <= fallbackScore text maxScore <= Z.max maxScore 50.
Proof.
  intros HM. unfold fallbackScore.
  destruct (exec fallbackPattern text); [|lia].
  pose proof (minWith_bounds (parseInt (capture 1 m)) HM (parseInt_nonneg _)).
  lia.
Qed.

End ScoreFacts.

(* ================================================================== *)
(** ** The lines of a reply *)
(* ================================================================== *)

Module LineFacts.
Import Gemini.

Lemma dropWhile_idem p : forall s, dropWhile p (dropWhile p s) = dropWhile p s.
Proof.
  induction s as [|x s IH]; simpl; [reflexivity|].
  destruct (p x) eqn:Hx; [assumption|]. simpl. now rewrite Hx.
Qed.

Lemma dropWhile_head p s :
  match dropWhile p s with [] => True | x :: _ => p x = false end.
Proof.
  induction s as [|x s IH]; simpl; [exact I|].
  destruct (p x) eqn:Hx; [assumption|exact Hx].
Qed.

Lemma dropWhile_snoc p c : p c = false ->
  forall a, exists u, dropWhile p (a ++ [c]) = u ++ [c].
Proof.
  intros Hc. induction a as [|x a [u Hu]]; simpl.
  - rewrite Hc. now exists [].
  - destruct (p x); [now exists u|]. now exists (x :: a).
Qed.

Lemma trim_fixed s : trimStart (trim s) = trim s /\ trimEnd (trim s) = trim s.
Proof.
  unfold trim, trimEnd, trimStart. split.
  - pose proof (dropWhile_head isSpace s) as H.
    destruct (dropWhile isSpace s) as [|c s']; [reflexivity|].
    simpl rev. destruct (dropWhile_snoc isSpace c H (rev s')) as [u ->].
    rewrite rev_app_distr. simpl. now rewrite H.
  - rewrite rev_involutive. now rewrite dropWhile_idem.
Qed.

Lemma trim_idem s : trim (trim s) = trim s.
Proof.
  destruct (trim_fixed s) as [H1 H2].
  unfold trim at 1. now rewrite H1, H2.
Qed.

(** Every line that the parsers scan is trimmed and not empty. *)
Lemma splitLines_lines text l :
  In l (splitLines text) -> l <> [] /\ trim l = l.
Proof.
  unfold splitLines. intros H. apply filter_In in H as [H Hne].
  apply in_map_iff in H as [raw [<- _]]. split.
  - intros E. rewrite E in Hne. discriminate.
  - apply trim_idem.
Qed.

End LineFacts.

(* ================================================================== *)
(** ** Sections of a reply: feedback, strengths, improvements, issues *)
(* ================================================================== *)

Module SectionFacts.
Import Gemini RegexFacts.

Lemma findIndex_first (A : Type) (p : A -> bool) pre x rest :
  (forall y, In y pre -> p y = false) -> p x = true ->
  findIndex p (pre ++ x :: rest) = Some (length pre).
Proof.
  intros Hpre Hx. induction pre as [|y pre IH]; simpl.
  - now rewrite Hx.
  - rewrite (Hpre y) by now left. rewrite IH; [reflexivity|].
    intros z Hz. apply Hpre. now right.
Qed.

Lemma findIndex_none (A : Type) (p : A -> bool) l :
  (forall y, In y l -> p y = false) -> findIndex p l = None.
Proof.
  induction l as [|y l IH]; intros H; simpl; [reflexivity|].
  rewrite (H y) by now left. rewrite IH; [reflexivity|].
  intros z Hz. apply H. now right.
Qed.

Lemma skipn_past (A : Type) (pre : list A) x rest :
  skipn (S (length pre)) (pre ++ x :: rest) = rest.
Proof. induction pre as [|y pre IH]; simpl; [reflexivity|exact IH]. Qed.

Lemma feedbackLoop_section stops body tail :
  sectionEnds stops body tail -> feedbackLoop stops (body ++ tail) = body.
Proof.
  intros [Hb Ht]. induction body as [|x body IH]; simpl.
  - destruct tail as [|s tail]; simpl; [reflexivity|now rewrite Ht].
  - rewrite (Hb x) by now left. f_equal. apply IH.
    intros y Hy. apply Hb. now right.
Qed.

(** [replace(/feedback:\s*/i, '')] on a line that begins with the marker
    cuts the marker and the white space after it. *)
Lemma replace_marker_prefix pat w rest :
  spelled pat w ->
  replaceEmpty {| p_ci := true; p_re := seqs [lit pat; ws] |} (w ++ rest)
  = dropWhile isSpace rest.
Proof.
  intros [Hl Hw]. unfold replaceEmpty, exec. cbn [p_ci p_re seqs fold_right].
  destruct (@litPrefix_app true pat w rest Hl Hw) as [Hp Hs].
  erewrite search_here.
  2:{ cbn [rmatch]. rewrite rmatch_lit, Hp, Hs. unfold ws. cbn [rmatch].
      apply starGreedy_max. reflexivity. }
  reflexivity.
Qed.

(** [replace(/^[-\u2022\d.\s]+/, '')] cuts the longest prefix in the class. *)
Lemma replace_markerPattern l :
  replaceEmpty markerPattern l = dropWhile isMarkerChar l.
Proof.
  unfold replaceEmpty, markerPattern. cbn [seqs fold_right].
  rewrite exec_bol. cbn [rmatch].
  destruct l as [|x s]; [reflexivity|].
  destruct (isMarkerChar x) eqn:Hx; cbn [dropWhile]; rewrite Hx;
    [|reflexivity].
  erewrite starGreedy_max; [|reflexivity]. reflexivity.
Qed.

Lemma stripMarker_itemOf l : stripMarker l = itemOf l.
Proof. unfold stripMarker, itemOf. now rewrite replace_markerPattern. Qed.

Lemma isDigit_not_dot y : isDigit y = true -> (46 =? y)%N = false.
Proof.
  unfold isDigit, between. intros H. apply andb_prop in H as [H _].
  apply N.leb_le in H. apply N.eqb_neq. lia.
Qed.

(** [line.match(/^\d+\./)] *)
Lemma test_numberedPattern l : test numberedPattern l = isNumbered l.
Proof.
  unfold test, numberedPattern. cbn [seqs fold_right].
  rewrite exec_bol. unfold digits. cbn [rmatch].
  destruct l as [|x s]; [reflexivity|].
  cbn [isNumbered dropWhile].
  destruct (isDigit x) eqn:Hx; [|reflexivity].
  rewrite starGreedy_strict.
  - destruct (dropWhile isDigit s) as [|y t]; [reflexivity|].
    unfold chrEq. change (js ".") with [46%N]. cbn [startsWith].
    rewrite (N.eqb_sym y). destruct (46 =? y)%N; cbn; reflexivity.
  - intros pos y t c Hy. unfold chrEq. now rewrite (isDigit_not_dot _ Hy).
Qed.

Lemma isBullet_bulletStyle l : isBullet l = bulletStyle l.
Proof.
  unfold isBullet, bulletStyle, isDashed.
  now rewrite test_numberedPattern.
Qed.

Lemma bulletLoop_section stops body tail :
  sectionEnds stops body tail ->
  bulletLoop stops (body ++ tail) = itemsOf body.
Proof.
  intros [Hb Ht]. unfold itemsOf. induction body as [|x body IH]; simpl.
  - destruct tail as [|s tail]; simpl; [reflexivity|now rewrite Ht].
  - rewrite (Hb x) by now left.
    rewrite isBullet_bulletStyle, stripMarker_itemOf.
    rewrite IH by (intros y Hy; apply Hb; now right).
    destruct (bulletStyle x); reflexivity.
Qed.

Lemma extractSection_at marker stops lines hdr body :
  sectionAt marker stops lines hdr body ->
  extractSection marker stops lines = itemsOf body.
Proof.
  intros (pre & tail & -> & Hpre & Hh & Hs). unfold extractSection.
  rewrite (@findIndex_first _ _ pre hdr _ Hpre Hh), skipn_past.
  now apply bulletLoop_section.
Qed.

Lemma extractSection_absent marker stops lines :
  (forall x, In x lines -> isHeader marker x = false) ->
  extractSection marker stops lines = [].
Proof.
  intros H. unfold extractSection. now rewrite findIndex_none.
Qed.

Lemma extractFeedback_at stops lines hdr body :
  sectionAt "feedback:" stops lines hdr body ->
  extractFeedback stops lines =
  trim (join (js " ")
          ((if (length (js "feedback:") <? length hdr)%nat
            then [replaceEmpty feedbackPattern hdr] else []) ++ body)).
Proof.
  intros (pre & tail & -> & Hpre & Hh & Hs). unfold extractFeedback.
  rewrite (@findIndex_first _ _ pre hdr _ Hpre Hh), skipn_past.
  rewrite nth_middle. now rewrite feedbackLoop_section.
Qed.

Lemma issuesLoop_In i : forall ls,
  In i (issuesLoop ls) <->
  exists l m, In l ls /\ isDashed l = true /\
              exec issuePattern l = Some m /\ i = mkIssue m.
Proof.
  induction ls as [|x ls IH]; cbn [issuesLoop].
  - split; [intros []|intros (l & m & [] & _)].
  - fold (isDashed x).
    destruct (isDashed x) eqn:Hd; [destruct (exec issuePattern x) eqn:Hx|].
    + split.
      * intros [<-|H]; [now exists x, m; repeat split; try now left|].
        apply IH in H as (l & m' & Hl & H). exists l, m'. split; [now right|easy].
      * intros (l & m' & [<-|Hl] & Hd' & Hm & ->).
        -- left. congruence.
        -- right. apply IH. now exists l, m'.
    + rewrite IH. split; intros (l & m' & Hl & Hd' & Hm & ->);
        exists l, m'; repeat split; try assumption; [now right|].
      destruct Hl as [<-|Hl]; [congruence|assumption].
    + rewrite IH. split; intros (l & m' & Hl & Hd' & Hm & ->);
        exists l, m'; repeat split; try assumption; [now right|].
      destruct Hl as [<-|Hl]; [congruence|assumption].
Qed.

Lemma extractIssues_at lines hdr body :
  sectionAt "code_issues:" [] lines hdr body ->
  extractIssues lines = issuesLoop body.
Proof.
  intros (pre & tail & -> & Hpre & Hh & _ & Ht). unfold extractIssues.
  rewrite (@findIndex_first _ _ pre hdr _ Hpre Hh), skipn_past.
  destruct tail as [|s tail]; [now rewrite app_nil_r|discriminate].
Qed.

Lemma extractIssues_absent lines :
  (forall x, In x lines -> isHeader "code_issues:" x = false) ->
  extractIssues lines = [].
Proof.
  intros H. unfold extractIssues. now rewrite findIndex_none.
Qed.

End SectionFacts.


(* ================================================================== *)
(** ** Fenced code blocks *)
(* ================================================================== *)

Module FenceFacts.
Import Gemini RegexFacts.

Lemma firstn_exact (A : Type) (a b : list A) : firstn (length a) (a ++ b) = a.
Proof. induction a as [|x a IH]; simpl; [reflexivity|now rewrite IH]. Qed.

Lemma forallb_isAny s : forallb isAny s = true.
Proof. induction s; simpl; auto. Qed.

Lemma chrEq_backtick x : chrEq true BACKTICK x = (x =? BACKTICK)%N.
Proof.
  unfold chrEq, canon, BACKTICK. change (between 97 122 96) with false.
  cbv iota. unfold between.
  destruct (N.leb_spec 97 x), (N.leb_spec x 122); cbn [andb];
    destruct (N.eqb_spec x 96); try (apply N.eqb_neq; lia);
    try (apply N.eqb_eq; lia).
Qed.

Lemma litPrefix_fence s : litPrefix true FENCE s = startsWith s FENCE.
Proof.
  unfold FENCE.
  destruct s as [|a [|b [|c s]]]; cbn [litPrefix startsWith];
    rewrite ?chrEq_backtick; reflexivity.
Qed.

Lemma extractCode_fenced marker text inner :
  fencedBlock (js marker) text inner ->
  extractCode marker text = trim inner.
Proof.
  intros (pre & w & gap & tag & post & Ht & [Hl Hw] & Hpre & Hgap & Htag & Hin).
  unfold extractCode, exec.
  cbn [p_ci p_re fencePattern seqs fold_right].
  assert (Hskip : search true
            (Seq (lit (js marker))
               (Seq ws (Seq (lit FENCE) (Seq (Star isWordChar) (Seq (Chr LF)
                  (Seq (Grp 1 (LazyStar isAny)) (Seq (lit FENCE) Eps)))))))
            0 text
          = Some {| m_index := length pre; m_rest := post;
                    m_caps := [(1%nat, inner)] |}).
  { rewrite Ht at 1. rewrite search_skip.
    2:{ intros i Hi. rewrite <- Ht. cbn [rmatch]. rewrite rmatch_lit.
        now rewrite (Hpre i Hi). }
    apply search_here with (e := (0 + length pre + length (js marker)
       + length gap + 3 + length tag + 1 + length inner + 3)%nat).
    cbn [rmatch]. rewrite rmatch_lit.
    destruct (@litPrefix_app true (js marker) w
                (gap ++ FENCE ++ tag ++ [LF] ++ inner ++ FENCE ++ post) Hl Hw)
      as [-> ->].
    unfold ws. cbn [rmatch]. apply starGreedy_max.
    destruct (@dropWhile_app_stop isSpace gap
                (FENCE ++ tag ++ [LF] ++ inner ++ FENCE ++ post) Hgap)
      as [-> ->]; [reflexivity|].
    rewrite rmatch_lit. rewrite litPrefix_fence.
    cbn [FENCE app startsWith length skipn]. rewrite N.eqb_refl. cbn [andb].
    apply starGreedy_max.
    destruct (@dropWhile_app_stop isWordChar tag
                (LF :: inner ++ BACKTICK :: BACKTICK :: BACKTICK :: post) Htag)
      as [-> ->]; [reflexivity|].
    change (chrEq true LF LF) with true. cbv iota.
    change (BACKTICK :: BACKTICK :: BACKTICK :: post) with (FENCE ++ post).
    apply starLazy_first.
    - apply forallb_isAny.
    - intros i Hi. rewrite rmatch_lit, litPrefix_fence.
      now rewrite (Hin i Hi).
    - rewrite rmatch_lit, litPrefix_fence.
      cbn [FENCE app startsWith length skipn]. rewrite N.eqb_refl.
      cbn [andb accept].
      match goal with |- context [firstn ?n _] =>
        assert (E : n = length inner) by lia; rewrite E end.
      rewrite firstn_exact. unfold accept. do 3 f_equal. lia. }
  rewrite Hskip. reflexivity.
Qed.

End FenceFacts.

(* ================================================================== *)
(** ** Facts about characters, captures and exact numbers *)
(* ================================================================== *)

Module CharFacts.
Import Num Gemini RegexFacts SectionFacts FenceFacts LineFacts.
Local Open Scope Z_scope.

Lemma isSpace_range x : isSpace x = true -> (x < 33 \/ 160 <= x)%N.
Proof.
  unfold isSpace, isWhiteSpace, isLineTerminator, between.
  rewrite !orb_true_iff, !andb_true_iff, !N.eqb_eq, !N.leb_le. lia.
Qed.

Lemma isDigit_range x : isDigit x = true -> (48 <= x <= 57)%N.
Proof.
  unfold isDigit, between. rewrite andb_true_iff, !N.leb_le. lia.
Qed.

Lemma isDigit_not_space x : isDigit x = true -> isSpace x = false.
Proof.
  intros H. apply isDigit_range in H.
  destruct (isSpace x) eqn:E; [|reflexivity].
  apply isSpace_range in E. lia.
Qed.

Lemma canon_outside x : (x < 97 \/ 122 < x)%N -> canon x = x.
Proof.
  intros H. unfold canon, between.
  destruct (N.leb_spec 97 x), (N.leb_spec x 122); simpl; try reflexivity. lia.
Qed.

(** A white space character is never matched by a letter, a digit or a
    punctuation mark of a pattern. *)
Lemma chrEq_space ci a x :
  (33 <= a < 160)%N -> isSpace x = true -> chrEq ci a x = false.
Proof.
  intros Ha Hx. apply isSpace_range in Hx. unfold chrEq.
  rewrite (@canon_outside x) by lia.
  destruct ci; apply N.eqb_neq; [|lia].
  unfold canon, between.
  destruct (N.leb_spec 97 a), (N.leb_spec a 122); simpl; lia.
Qed.

(** A character that is not a letter matches itself only, with or without
    the [i] flag. *)
Lemma chrEq_nonletter ci a x :
  (a < 65 \/ 90 < a < 97 \/ 122 < a)%N -> chrEq ci a x = (x =? a)%N.
Proof.
  intros Ha. unfold chrEq. destruct ci; [|apply N.eqb_sym].
  unfold canon, between.
  destruct (N.leb_spec 97 a), (N.leb_spec a 122),
           (N.leb_spec 97 x), (N.leb_spec x 122); cbn [andb]; try lia;
    destruct (N.eqb_spec x a); try (apply N.eqb_eq; lia);
    apply N.eqb_neq; lia.
Qed.


Lemma lowerUnit_spelled a x :
  isMarkerLetter a = true -> chrEq true a x = true -> lowerUnit x = [a].
Proof.
  unfold isMarkerLetter, chrEq, canon, lowerUnit, between.
  rewrite !orb_true_iff, !andb_true_iff, !N.eqb_eq, !N.leb_le.
  intros Ha H.
  destruct (N.leb_spec 97 a), (N.leb_spec a 122),
           (N.leb_spec 97 x), (N.leb_spec x 122),
           (N.leb_spec 65 x), (N.leb_spec x 90); cbn [andb] in *;
    try lia;
    repeat match goal with
           | |- context [(?u =? ?v)%N] => destruct (N.eqb_spec u v)
           end; try lia; f_equal; lia.
Qed.

Lemma toLowerCase_spelled pat : forall w,
  forallb isMarkerLetter pat = true -> spelled pat w -> toLowerCase w = pat.
Proof.
  induction pat as [|a pat IH]; intros [|x w] Hp [Hl Hw]; simpl in *;
    try discriminate; [reflexivity|].
  apply andb_prop in Hp as [Ha Hp]. apply andb_prop in Hw as [Hx Hw].
  rewrite (@lowerUnit_spelled a x Ha Hx). simpl. f_equal.
  apply IH; [assumption|split; [lia|assumption]].
Qed.

Lemma startsWith_app pat rest : startsWith (pat ++ rest) pat = true.
Proof.
  induction pat as [|a pat IH]; simpl; [reflexivity|].
  now rewrite N.eqb_refl, IH.
Qed.

(** A line that begins with a marker, in any letter case, is a header. *)
Lemma isHeader_spelled marker w rest :
  forallb isMarkerLetter (js marker) = true ->
  spelled (js marker) w -> isHeader marker (w ++ rest) = true.
Proof.
  intros Hp Hw. unfold isHeader, toLowerCase.
  rewrite flat_map_app. fold (toLowerCase w).
  rewrite (@toLowerCase_spelled _ _ Hp Hw). apply startsWith_app.
Qed.

End CharFacts.

Module CaptureFacts.
Import Num Gemini RegexFacts SectionFacts FenceFacts LineFacts.
Local Open Scope Z_scope.
Import ScoreFacts.

Lemma starGreedy_caps p k res : forall s pos c,
  starGreedy p pos s c k = Some res ->
  exists pos' s', k pos' s' c = Some res.
Proof.
  induction s as [|x s IH]; intros pos c H; simpl in H; [eauto|].
  destruct (p x); [|eauto].
  destruct (starGreedy p (S pos) s c k) eqn:E; [|eauto].
  injection H as <-. eapply IH, E.
Qed.

Lemma starLazy_caps p k res : forall s pos c,
  starLazy p pos s c k = Some res ->
  exists pos' s', k pos' s' c = Some res.
Proof.
  induction s as [|x s IH]; intros pos c H; simpl in H.
  - destruct (k pos [] c) eqn:E; [|discriminate]. injection H as <-. eauto.
  - destruct (k pos (x :: s) c) eqn:E; [injection H as <-; eauto|].
    destruct (p x); [|discriminate]. eapply IH, H.
Qed.

(** A pattern without groups hands the captures on as they are. *)
Lemma rmatch_groupFree ci r : groupFree r = true ->
  forall pos s c k res,
  rmatch ci r pos s c k = Some res ->
  exists pos' s', k pos' s' c = Some res.
Proof.
  induction r as [|a|p| |r1 IH1 r2 IH2|r1 IH1 r2 IH2|r1 IH1|p|p|p|n r1 IH1];
    intros G pos s c k res H; cbn [rmatch groupFree] in *.
  - eauto.
  - destruct s as [|x s]; [discriminate|].
    destruct (chrEq ci a x); [eauto|discriminate].
  - destruct s as [|x s]; [discriminate|].
    destruct (p x); [eauto|discriminate].
  - destruct (Nat.eqb pos 0); [eauto|discriminate].
  - apply andb_prop in G as [G1 G2].
    destruct (IH1 G1 _ _ _ _ _ H) as (pos1 & s1 & H1).
    eapply IH2; eassumption.
  - apply andb_prop in G as [G1 G2].
    destruct (rmatch ci r1 pos s c k) eqn:E.
    + injection H as <-. eapply IH1; eassumption.
    + eapply IH2; eassumption.
  - destruct (rmatch ci r1 pos s c k) eqn:E.
    + injection H as <-. eapply IH1; eassumption.
    + eauto.
  - eapply starGreedy_caps, H.
  - destruct s as [|x s]; [discriminate|].
    destruct (p x); [|discriminate]. eapply starGreedy_caps, H.
  - eapply starLazy_caps, H.
  - discriminate.
Qed.

Lemma skipn_inside (pre rest : jsstring) i :
  (i < length pre)%nat ->
  exists c t, skipn i (pre ++ rest) = c :: t /\ In c pre.
Proof.
  revert i. induction pre as [|x pre IH]; intros i Hi; simpl in Hi; [lia|].
  destruct i as [|i]; simpl.
  - exists x, (pre ++ rest). split; [reflexivity|now left].
  - destruct (IH i ltac:(lia)) as (c & t & E & Hc).
    exists c, t. split; [assumption|now right].
Qed.

Lemma existsb_false_In (p : N -> bool) s c :
  existsb p s = false -> In c s -> p c = false.
Proof.
  intros H Hc. destruct (p c) eqn:E; [|reflexivity].
  rewrite <- H. symmetry. apply existsb_exists. now exists c.
Qed.

Lemma numeral_cons ds :
  isNumeral ds = true ->
  exists d ds', ds = d :: ds' /\ isDigit d = true /\ forallb isDigit ds' = true.
Proof.
  unfold isNumeral. destruct ds as [|d ds']; [discriminate|].
  simpl. intros H. apply andb_prop in H as [Hd H]. eauto.
Qed.

(** A greedy run in a group, then an optional part without groups: the
    group holds the longest run. *)
Lemma rmatch_run_then_optional ci n p r2 pos d ds' rest :
  groupFree r2 = true ->
  p d = true -> forallb p ds' = true -> stopsAt p rest ->
  exists e rest',
    rmatch ci (Seq (Grp n (Plus p)) (Seq (Opt r2) Eps)) pos
           ((d :: ds') ++ rest) [] accept
    = Some (e, rest', [(n, d :: ds')]).
Proof.
  intros G Hd Hds' Hrest.
  destruct (@RegexFacts.dropWhile_app_stop p ds' rest Hds' Hrest)
    as [Hdrop Htake].
  cbn [rmatch app]. rewrite Hd.
  match goal with |- context [starGreedy p ?q ?s ?c ?k] => set (K := k) end.
  assert (El : (S pos + length ds' - pos = length (d :: ds'))%nat)
    by (cbn [length]; lia).
  destruct (K (S pos + length ds')%nat rest []) as [[[e rest'] caps]|] eqn:E.
  - assert (Hcaps : caps = [(n, d :: ds')]).
    { subst K. cbv beta in E. rewrite El in E.
      change (d :: ds' ++ rest) with ((d :: ds') ++ rest) in E.
      rewrite firstn_exact in E.
      destruct (rmatch ci r2 _ rest _ _) eqn:E1.
      - injection E as ->.
        apply (rmatch_groupFree _ _ G) in E1 as (pos' & s' & E1).
        unfold accept in E1. now injection E1.
      - unfold accept in E. now injection E. }
    exists e, rest'. apply starGreedy_max.
    now rewrite Hdrop, Htake, E, Hcaps.
  - exfalso. subst K. cbv beta in E.
    destruct (rmatch ci r2 _ rest _ _); discriminate.
Qed.

(** The pattern of the [catch] block captures the first run of digits. *)
Lemma fallback_first_numeral pre ds rest :
  existsb isDigit pre = false -> isNumeral ds = true ->
  stopsAt isDigit rest ->
  exists m, exec fallbackPattern (pre ++ ds ++ rest) = Some m /\
            capture 1 m = ds.
Proof.
  intros Hpre Hds Hrest.
  destruct (@numeral_cons ds Hds) as (d & ds' & -> & Hd & Hds').
  unfold exec. rewrite search_skip.
  2:{ intros i Hi.
      destruct (@skipn_inside pre ((d :: ds') ++ rest) i Hi) as (c & t & -> & Hc).
      cbn [fallbackPattern p_re p_ci seqs fold_right rmatch digits].
      now rewrite (@existsb_false_In isDigit pre c Hpre Hc). }
  unfold fallbackPattern. cbn [p_ci p_re].
  match goal with
  | |- context [search _ (seqs [Grp 1 digits; Opt ?r2]) _ _] =>
      destruct (@rmatch_run_then_optional true 1 isDigit r2 (0 + length pre)
                  d ds' rest eq_refl Hd Hds' Hrest) as (e & rest' & Hm)
  end.
  exists {| m_index := (0 + length pre)%nat; m_rest := rest';
            m_caps := [(1%nat, d :: ds')] |}.
  split; [apply (search_here _ _ _ _ Hm)|reflexivity].
Qed.

End CaptureFacts.

Module ExactFacts.
Import Num Gemini RegexFacts SectionFacts FenceFacts LineFacts.
Local Open Scope Z_scope.
Import NumFacts CharFacts CaptureFacts.
Open Scope Z_scope.

Lemma roundNearestEven_one a : roundNearestEven a 1 = a.
Proof.
  unfold roundNearestEven. rewrite Z.div_1_r, Z.mod_1_r. reflexivity.
Qed.

(** An integer below [2^53] is a double. *)
Lemma toDouble_integer n :
  0 < n < 2 ^ 53 ->
  exists k, 0 <= k <= 52 /\ toDouble n 1 = Finite (n * 2 ^ k) (- k).
Proof.
  intros [Hpos Hlt].
  assert (He : 0 <= Z.log2 n < 53).
  { split; [apply Z.log2_nonneg|]. apply Z.log2_lt_pow2; lia. }
  pose proof (Z.log2_spec n Hpos) as [Hlo _].
  exists (52 - Z.log2 n). split; [lia|].
  unfold toDouble, floorLog2.
  destruct (Z.leb_spec n 0); [lia|].
  change (Z.log2 1) with 0. rewrite Z.sub_0_r.
  destruct (Z.leb_spec 0 (Z.log2 n)); [|lia].
  rewrite Z.mul_1_l.
  destruct (Z.leb_spec (2 ^ Z.log2 n) n); [|lia].
  rewrite Z.max_l by lia.
  assert (Hm : (if 0 <=? Z.log2 n - 52
                then roundNearestEven n (1 * 2 ^ (Z.log2 n - 52))
                else roundNearestEven (n * 2 ^ (- (Z.log2 n - 52))) 1)
               = n * 2 ^ (52 - Z.log2 n)).
  { destruct (Z.leb_spec 0 (Z.log2 n - 52)).
    - replace (Z.log2 n - 52) with 0 by lia.
      replace (52 - Z.log2 n) with 0 by lia.
      change (1 * 2 ^ 0) with 1. rewrite roundNearestEven_one.
      change (2 ^ 0) with 1. lia.
    - rewrite roundNearestEven_one. f_equal. f_equal. lia. }
  rewrite Hm.
  assert (Hp : 0 < 2 ^ (52 - Z.log2 n)) by (apply Z.pow_pos_nonneg; lia).
  destruct (Z.eqb_spec (n * 2 ^ (52 - Z.log2 n)) 0); [nia|].
  rewrite Z.log2_mul_pow2 by lia.
  destruct (Z.leb_spec 1024 (Z.log2 n - 52 + (52 - Z.log2 n + Z.log2 n)));
    [lia|].
  f_equal. lia.
Qed.

(** [Math.round] and [Math.min] after [parseFloat] or [parseInt] are exact
    on the integers below [2^53]. *)
Lemma minWith_integer n maxScore :
  0 <= n < 2 ^ 53 ->
  minWith (round (toDouble n 1)) maxScore = Z.min n maxScore /\
  minWith (toDouble n 1) maxScore = Z.min n maxScore.
Proof.
  intros [H0 Hlt].
  destruct (Z.eq_dec n 0) as [->|Hn]; [split; reflexivity|].
  destruct (@toDouble_integer n ltac:(lia)) as (k & Hk & ->).
  assert (Hp : 0 < 2 ^ k) by (apply Z.pow_pos_nonneg; lia).
  unfold round, minWith, integerValue.
  destruct (Z.leb_spec 0 (- k)).
  - replace k with 0 by lia. change (- 0) with 0.
    change (0 <=? 0) with true. cbv iota.
    change (2 ^ 0) with 1. rewrite !Z.mul_1_r. easy.
  - replace (- - k) with k by lia. split.
    + change (0 <=? 0) with true. cbv iota.
      change (2 ^ 0) with 1. rewrite Z.mul_1_r.
      rewrite Z.div_add_l by lia.
      rewrite Z.div_small; [f_equal; lia|].
      split; [apply Z.pow_nonneg; lia|].
      apply Z.pow_lt_mono_r; lia.
    + rewrite Z.div_mul by lia. reflexivity.
Qed.

Lemma digitsValue_snoc ds d :
  digitsValue (ds ++ [d]) = 10 * digitsValue ds + (Z.of_N d - 48).
Proof. unfold digitsValue. now rewrite fold_left_app. Qed.

Lemma digitsValue_nonneg ds : forallb isDigit ds = true -> 0 <= digitsValue ds.
Proof.
  induction ds as [|d ds IH] using rev_ind; intros H; [reflexivity|].
  rewrite forallb_app in H. apply andb_prop in H as [H Hd].
  simpl in Hd. rewrite andb_true_r in Hd. apply isDigit_range in Hd.
  rewrite digitsValue_snoc. specialize (IH H). lia.
Qed.

Lemma takeWhile_all p s : forallb p s = true ->
  takeWhile p s = s /\ dropWhile p s = [].
Proof.
  induction s as [|c s IH]; simpl; intros H; [easy|].
  apply andb_prop in H as [-> H]. destruct (IH H) as [-> ->]. easy.
Qed.

Lemma numeral_digits ds : isNumeral ds = true -> forallb isDigit ds = true.
Proof. unfold isNumeral. intros H. now apply andb_prop in H. Qed.

Lemma parse_numeral ds maxScore :
  isNumeral ds = true -> digitsValue ds < 2 ^ 53 ->
  minWith (round (parseFloat ds)) maxScore = Z.min (digitsValue ds) maxScore /\
  minWith (parseInt ds) maxScore = Z.min (digitsValue ds) maxScore.
Proof.
  intros Hds Hlt. apply numeral_digits in Hds.
  pose proof (digitsValue_nonneg ds Hds) as H0.
  unfold parseFloat, parseInt.
  destruct (takeWhile_all isDigit ds Hds) as [-> ->].
  rewrite app_nil_r. change (10 ^ Z.of_nat (length (@nil N))) with 1.
  apply minWith_integer. lia.
Qed.

(** A line [SCORE: n]: the first score pattern matches at its start and
    captures the digits. *)
Lemma score_line_match w gap ds rest :
  spelled (js "SCORE:") w -> forallb isSpace gap = true ->
  isNumeral ds = true ->
  stopsAt (fun c => isDigit c || (c =? 46)%N) rest ->
  tryPatterns scorePatterns (w ++ gap ++ ds ++ rest)
  = Some {| m_index := 0; m_rest := rest; m_caps := [(1%nat, ds)] |}.
Proof.
  intros [Hl Hw] Hgap Hds Hrest.
  destruct (@numeral_cons ds Hds) as (d & ds' & -> & Hd & Hds').
  assert (Hr1 : stopsAt isDigit rest).
  { unfold stopsAt in *. destruct rest as [|c rest]; [exact I|].
    now apply orb_false_elim in Hrest. }
  assert (Hr2 : match rest with [] => True | c :: _ => (46 =? c)%N = false end).
  { unfold stopsAt in *. destruct rest as [|c rest]; [exact I|].
    apply orb_false_elim in Hrest as [_ H]. now rewrite N.eqb_sym. }
  destruct (@RegexFacts.dropWhile_app_stop isDigit ds' rest Hds' Hr1)
    as [Hdrop Htake].
  cbn [tryPatterns scorePatterns]. unfold exec. cbn [p_ci p_re].
  erewrite search_here; [reflexivity|].
  cbn [seqs fold_right rmatch]. rewrite rmatch_lit.
  destruct (@litPrefix_app true (js "SCORE:") w
              (gap ++ (d :: ds') ++ rest) Hl Hw) as [-> ->].
  unfold ws. cbn [rmatch]. apply starGreedy_max.
  destruct (@RegexFacts.dropWhile_app_stop isSpace gap ((d :: ds') ++ rest)
              Hgap (isDigit_not_space d Hd)) as [-> ->].
  unfold decimal, digits. cbn [seqs fold_right rmatch app]. rewrite Hd.
  apply starGreedy_max. rewrite Hdrop, Htake.
  match goal with |- context [firstn ?n _] =>
    assert (El : n = length (d :: ds')) by (cbn [length]; lia); rewrite El
  end.
  change (d :: ds' ++ rest) with ((d :: ds') ++ rest).
  rewrite firstn_exact.
  destruct rest as [|c rest]; [reflexivity|].
  rewrite chrEq_nonletter by lia. rewrite N.eqb_sym, Hr2. reflexivity.
Qed.

End ExactFacts.

(* ================================================================== *)
(** ** Claims about the score *)
(* ================================================================== *)

Import Num Gemini.
Open Scope Z_scope.

(** On the [try] path of either parser the score lies in [[0, maxScore]];
    on the [catch] path it does as soon as the reply holds a decimal digit
    or [maxScore] is at least 50. *)
Lemma score_in_range o text maxScore :
  0 < maxScore ->
  o = Completes \/ existsb isDigit text = true \/ 50 <= maxScore ->
  0 <= score (parseAnalysisResponse o text maxScore) <= maxScore /\
  0 <= score (parseCodeAnalysisResponse o text maxScore) <= maxScore.
Proof.
  intros HM H. destruct o; simpl.
  - split; apply ScoreFacts.scanScore_bounds; (assumption || lia).
  - assert (0 <= fallbackScore text maxScore <= maxScore); [|easy].
    destruct (existsb isDigit text) eqn:Hd.
    + now apply ScoreFacts.fallbackScore_digit.
    + rewrite ScoreFacts.fallbackScore_no_digit by assumption.
      destruct H as [H|[H|H]]; (discriminate || lia).
Qed.




(** C2 as stated is false: the reply [hello] has no line that matches a
    score pattern, and both parsers return score 0, not 50; and when the
    [try] block raises on [see 2 files], which has no score token either,
    the [catch] block returns 2. *)
Lemma C2_no_token_is_not_50 :
  (forall l, In l (splitLines (js "hello")) ->
             tryPatterns scorePatterns l = None) /\
  score (parseAnalysisResponse Completes (js "hello") 100) = 0 /\
  score (parseCodeAnalysisResponse Completes (js "hello") 100) = 0 /\
  (forall l, In l (splitLines (js "see 2 files")) ->
             tryPatterns scorePatterns l = None) /\
  score (parseAnalysisResponse Throws (js "see 2 files") 100) = 2 /\
  score (parseCodeAnalysisResponse Throws (js "see 2 files") 100) = 2.
Proof.
  repeat split; try (vm_compute; reflexivity);
    intros l [<-|[]]; vm_compute; reflexivity.
Qed.

(** C2 (amended): when no line of the reply matches a score pattern, the
    [try] block of either parser returns score 0, the initial running value;
    the default 50 belongs to the [catch] block, which returns it when the
    reply holds no decimal digit at all. *)
Theorem C2_no_token_scores text maxScore :
  (forall l, In l (splitLines text) -> tryPatterns scorePatterns l = None) ->
  score (parseAnalysisResponse Completes text maxScore) = 0 /\
  score (parseCodeAnalysisResponse Completes text maxScore) = 0 /\
  (existsb isDigit text = false ->
   score (parseAnalysisResponse Throws text maxScore) = 50 /\
   score (parseCodeAnalysisResponse Throws text maxScore) = 50).
Proof.
  intros H. simpl. rewrite ScoreFacts.scanScore_no_match by assumption.
  repeat split; now apply ScoreFacts.fallbackScore_no_digit.
Qed.

Lemma C2_no_token_scores_witness :
  score (parseAnalysisResponse Completes (js "hello") 100) = 0 /\
  score (parseCodeAnalysisResponse Completes (js "hello") 100) = 0 /\
  (existsb isDigit (js "hello") = false ->
   score (parseAnalysisResponse Throws (js "hello") 100) = 50 /\
   score (parseCodeAnalysisResponse Throws (js "hello") 100) = 50).
Proof.
  apply (C2_no_token_scores (js "hello") 100).
  intros l [<-|[]]; vm_compute; reflexivity.
Defined.

(** The running value stays at 0 over lines that match no pattern. *)
Lemma scanScore_skip maxScore : forall pre rest,
  (forall x, In x pre -> tryPatterns scorePatterns x = None) ->
  scanScore maxScore 0 (pre ++ rest) = scanScore maxScore 0 rest.
Proof.
  induction pre as [|x pre IH]; intros rest H; [reflexivity|].
  rewrite <- app_comm_cons. cbn [scanScore].
  rewrite (H x) by now left. simpl. apply IH.
  intros y Hy. apply H. now right.
Qed.

(** C3 as stated is false in its last sentence: the reply [Progress 1/2],
    [SCORE: 150] contains [SCORE: 150], and with [maxScore = 100] both
    parsers return 1, the value of the earlier line that matches the third
    pattern. *)
Lemma C3_earlier_line_wins :
  Detect.includes (unlines ["Progress 1/2"; "SCORE: 150"]) (js "SCORE: 150")
  = true /\
  score (parseAnalysisResponse Completes
           (unlines ["Progress 1/2"; "SCORE: 150"]) 100) = 1 /\
  score (parseCodeAnalysisResponse Completes
           (unlines ["Progress 1/2"; "SCORE: 150"]) 100) = 1.
Proof. repeat split; vm_compute; reflexivity. Qed.

(** C3 (amended): the scan goes through the non-empty trimmed lines in
    order.  At the first line [l] that matches a score pattern, with match
    [m] of the first pattern that matches it and [N = parseFloat(m[1])],
    the score becomes [found], the integer nearest to [N] (a half going
    up) or [maxScore], whichever is smaller; when [m[1]] is the digits of
    an integer below [2^53] that is the smaller of this integer and
    [maxScore].  If [found] is not 0 it is the result, and if it is 0 the
    scan goes on over the later lines from the running value 0, as if [l]
    had not matched.  A reply whose first matching line is [SCORE: 150]
    parses to 100 under [maxScore = 100]. *)
Theorem C3_score_scan text maxScore pre l post m :
  0 < maxScore ->
  splitLines text = pre ++ l :: post ->
  (forall x, In x pre -> tryPatterns scorePatterns x = None) ->
  tryPatterns scorePatterns l = Some m ->
  exists found : Z,
    roundedAndCapped (parseFloat (capture 1 m)) maxScore found /\
    (isNumeral (capture 1 m) = true -> digitsValue (capture 1 m) < 2 ^ 53 ->
     found = Z.min (digitsValue (capture 1 m)) maxScore) /\
    (forall x, In x (splitLines text) -> x <> [] /\ trim x = x) /\
    score (parseAnalysisResponse Completes text maxScore)
    = (if found =? 0 then scanScore maxScore 0 post else found) /\
    score (parseCodeAnalysisResponse Completes text maxScore)
    = (if found =? 0 then scanScore maxScore 0 post else found) /\
    (l = js "SCORE: 150" -> maxScore = 100 ->
     score (parseAnalysisResponse Completes text maxScore) = 100 /\
     score (parseCodeAnalysisResponse Completes text maxScore) = 100).
Proof.
  intros HM Hl Hpre Hm.
  set (found := minWith (round (parseFloat (capture 1 m))) maxScore).
  assert (Hscan : scanScore maxScore 0 (splitLines text)
                  = if found =? 0 then scanScore maxScore 0 post else found).
  { rewrite Hl, scanScore_skip by assumption. cbn [scanScore].
    rewrite Hm. unfold lineScore. fold found.
    pose proof (ScoreFacts.lineScore_bounds m HM) as Hb.
    unfold lineScore in Hb. fold found in Hb.
    destruct (found =? 0) eqn:E0.
    - apply Z.eqb_eq in E0. rewrite E0. reflexivity.
    - apply Z.eqb_neq in E0.
      destruct (0 <? found) eqn:E1; [reflexivity|].
      apply Z.ltb_ge in E1. lia. }
  assert (Hint : isNumeral (capture 1 m) = true ->
                 digitsValue (capture 1 m) < 2 ^ 53 ->
                 found = Z.min (digitsValue (capture 1 m)) maxScore).
  { intros Hn Hlt. subst found.
    now destruct (@ExactFacts.parse_numeral (capture 1 m) maxScore Hn Hlt). }
  exists found.
  split; [apply NumFacts.minWith_round|].
  split; [exact Hint|].
  split; [intros x; apply LineFacts.splitLines_lines|].
  split; [exact Hscan|]. split; [exact Hscan|].
  intros -> ->.
  assert (Em : m = {| m_index := 0; m_rest := [];
                      m_caps := [(1%nat, js "150")] |}).
  { vm_compute in Hm. now injection Hm as <-. }
  assert (E : found = 100).
  { rewrite Hint; subst m; vm_compute; reflexivity. }
  change (score (parseAnalysisResponse Completes text 100))
    with (scanScore 100 0 (splitLines text)).
  change (score (parseCodeAnalysisResponse Completes text 100))
    with (scanScore 100 0 (splitLines text)).
  rewrite Hscan, E. split; reflexivity.
Qed.

Lemma C3_score_scan_witness :
  score (parseAnalysisResponse Completes
           (unlines ["Here is my review"; "  SCORE: 74.5  "; "3/4"]) 100) = 75 /\
  score (parseCodeAnalysisResponse Completes
           (unlines ["Here is my review"; "  SCORE: 74.5  "; "3/4"]) 100) = 75.
Proof.
  destruct (@C3_score_scan
    (unlines ["Here is my review"; "  SCORE: 74.5  "; "3/4"]) 100
    [js "Here is my review"] (js "SCORE: 74.5") [js "3/4"]
    {| m_index := 0; m_rest := []; m_caps := [(1%nat, js "74.5")] |}
    ltac:(lia) ltac:(vm_compute; reflexivity)
    ltac:(intros x [<-|[]]; vm_compute; reflexivity)
    ltac:(vm_compute; reflexivity)) as (found & Hr & _ & _ & H1 & H2 & _).
  assert (E : found = 75).
  { match type of Hr with roundedAndCapped ?x _ _ =>
      assert (Ex : x = Finite 5242471441235968 (-46))
        by (vm_compute; reflexivity);
      rewrite Ex in Hr
    end.
    unfold roundedAndCapped, nearestInteger in Hr.
    destruct Hr as (k & [Hlo Hhi] & ->).
    change (Z.max 0 (- -46)) with 46 in *.
    change (Z.max 0 (-46)) with 0 in *.
    change (2 ^ 0) with 1 in *. change (2 ^ 46) with 70368744177664 in *.
    lia. }
  rewrite H1, H2, E. split; reflexivity.
Defined.

(* ================================================================== *)
(** ** Claims about the feedback *)
(* ================================================================== *)

Import SectionFacts FenceFacts.


Lemma header_longer (pat w rest : jsstring) :
  length w = length pat ->
  (length pat <? length (w ++ rest))%nat = negb (isEmpty rest).
Proof.
  intros H. rewrite length_app, H.
  destruct rest; simpl.
  - rewrite Nat.add_0_r. apply Nat.ltb_irrefl.
  - apply Nat.ltb_lt. lia.
Qed.

Lemma extractFeedback_section stops lines w rest body :
  spelled (js "feedback:") w ->
  sectionAt "feedback:" stops lines (w ++ rest) body ->
  extractFeedback stops lines =
  trim (join (js " ")
          ((if isEmpty rest then [] else [dropWhile isSpace rest]) ++ body)).
Proof.
  intros Hw Hs. rewrite (extractFeedback_at Hs).
  rewrite (header_longer _ _ rest (proj1 Hw)).
  unfold feedbackPattern. rewrite (replace_marker_prefix rest Hw).
  destruct (isEmpty rest); reflexivity.
Qed.

(** C4 as stated is false: a [CATEGORY:] line after the feedback is not a
    stop marker of either parser, nor is a [SCORE:] line one of the code
    parser, and such a header line ends up inside the feedback. *)
Lemma C4_header_inside_feedback :
  feedback (parseAnalysisResponse Completes
     (unlines ["FEEDBACK: good"; "CATEGORY: essay"; "STRENGTHS:"; "- clear"])
     100) = js "good CATEGORY: essay" /\
  feedback (parseCodeAnalysisResponse Completes
     (unlines ["FEEDBACK: good"; "SCORE: 7"; "STRENGTHS:"; "- clear"])
     100) = js "good SCORE: 7".
Proof. split; vm_compute; reflexivity. Qed.

(** C4 (amended): let the first line that begins with [feedback:] be the
    marker, in any mix of ASCII capitals and small letters, followed by
    [rest], and let [body] be the lines after it up to, and without, the
    first line that begins with a stop marker of the parser: [strengths:],
    [improvements:], [score:] for the generic parser; [strengths:],
    [improvements:], [corrected_code:], [optimized_code:], [code_issues:]
    for the code parser.  The feedback is [rest] without its leading white
    space (nothing when [rest] is empty) and the lines of [body], joined by
    single spaces and trimmed; an empty feedback is replaced by the
    parser's default sentence. *)
Theorem C4_feedback_section text maxScore w rest body :
  spelled (js "feedback:") w ->
  let lines := splitLines text in
  let kept := (if isEmpty rest then [] else [dropWhile isSpace rest]) ++ body in
  (sectionAt "feedback:" ["strengths:"; "improvements:"; "score:"]
             lines (w ++ rest) body ->
   feedback (parseAnalysisResponse Completes text maxScore) =
   orElse (trim (join (js " ") kept)) "Analysis completed successfully") /\
  (sectionAt "feedback:"
             ["strengths:"; "improvements:"; "corrected_code:";
              "optimized_code:"; "code_issues:"]
             lines (w ++ rest) body ->
   feedback (parseCodeAnalysisResponse Completes text maxScore) =
   orElse (trim (join (js " ") kept)) "Code analysis completed successfully").
Proof.
  intros Hw lines kept. subst lines kept. split; intros Hs; open_parse;
    now rewrite (extractFeedback_section rest Hw Hs).
Qed.

Lemma C4_feedback_section_witness :
  feedback (parseAnalysisResponse Completes feedbackReply 100)
  = js "ok then more CATEGORY: x" /\
  feedback (parseCodeAnalysisResponse Completes feedbackReply 100)
  = js "ok then more CATEGORY: x".
Proof.
  assert (Hw : spelled (js "feedback:") (js "Feedback:"))
    by (split; vm_compute; reflexivity).
  assert (Hs : forall stops,
             isAnyHeader stops (js "more") = false ->
             isAnyHeader stops (js "CATEGORY: x") = false ->
             isAnyHeader stops (js "STRENGTHS:") = true ->
             sectionAt "feedback:" stops (splitLines feedbackReply)
               (js "Feedback:" ++ js "  ok then")
               [js "more"; js "CATEGORY: x"]).
  { intros stops H1 H2 H3.
    exists [js "SCORE: 5"], [js "STRENGTHS:"; js "- a"].
    split; [vm_compute; reflexivity|].
    split; [intros x [<-|[]]; vm_compute; reflexivity|].
    split; [vm_compute; reflexivity|].
    split; [intros x [<-|[<-|[]]]; assumption|exact H3]. }
  destruct (@C4_feedback_section feedbackReply 100 (js "Feedback:")
              (js "  ok then") [js "more"; js "CATEGORY: x"] Hw) as [H1 H2].
  split.
  - rewrite H1; [vm_compute; reflexivity|].
    apply Hs; vm_compute; reflexivity.
  - rewrite H2; [vm_compute; reflexivity|].
    apply Hs; vm_compute; reflexivity.
Defined.

(* ================================================================== *)
(** ** Claims about strengths and improvements *)
(* ================================================================== *)

Lemma itemOf_clean mk content :
  forallb isMarkerChar mk = true ->
  match content with [] => True | c :: _ => isMarkerChar c = false end ->
  itemOf (mk ++ content) = trim content.
Proof.
  intros Hm Hc. unfold itemOf.
  now destruct (RegexFacts.dropWhile_app_stop isMarkerChar mk content Hm Hc)
    as [-> _].
Qed.

(** C5 as stated is false.  The marker pattern removes every leading
    character among [-], the bullet, digits, [.] and white space, so digits
    that open the item's own text go too; and the improvements loop of the
    generic parser has no stop marker, so it also collects the bullets of a
    section that follows. *)
Lemma C5_more_than_the_marker_removed :
  strengths (parseAnalysisResponse Completes
     (unlines ["STRENGTHS:"; "- 3 tests pass"]) 100) = [js "tests pass"] /\
  strengths (parseCodeAnalysisResponse Completes
     (unlines ["STRENGTHS:"; "- 3 tests pass"]) 100) = [js "tests pass"] /\
  improvements (parseAnalysisResponse Completes
     (unlines ["IMPROVEMENTS:"; "- shorten"; "STRENGTHS:"; "- clear"]) 100)
  = [js "shorten"; js "clear"].
Proof. repeat split; vm_compute; reflexivity. Qed.

(** C5 (amended): let [body] be the lines after the first [strengths:]
    (or [improvements:]) line up to, and without, the first line that
    begins with a stop marker of that loop.  The stop markers are
    [improvements:] for the strengths of the generic parser, none for its
    improvements (the loop runs to the end of the reply),
    [improvements:], [corrected_code:], [optimized_code:], [code_issues:]
    for the strengths of the code parser, and the last three for its
    improvements.  Exactly the lines of [body] that begin with [-], with
    the bullet, or with digits and a dot are collected, in order, and each
    item is its line without the longest prefix made of [-], the bullet,
    digits, [.] and white space, trimmed; that is the text after the
    marker alone whenever this text does not itself begin with one of
    these characters. *)
Theorem C5_collected_items text maxScore hdr body :
  let lines := splitLines text in
  (forall l, isBullet l = bulletStyle l /\ stripMarker l = itemOf l) /\
  (forall mk content,
     forallb isMarkerChar mk = true ->
     match content with [] => True | c :: _ => isMarkerChar c = false end ->
     stripMarker (mk ++ content) = trim content) /\
  (sectionAt "strengths:" ["improvements:"] lines hdr body ->
   strengths (parseAnalysisResponse Completes text maxScore) =
   orPlaceholder (itemsOf body) "Text structure is present") /\
  (sectionAt "improvements:" [] lines hdr body ->
   improvements (parseAnalysisResponse Completes text maxScore) =
   orPlaceholder (itemsOf body) "Consider reviewing for clarity") /\
  (sectionAt "strengths:"
     ["improvements:"; "corrected_code:"; "optimized_code:"; "code_issues:"]
     lines hdr body ->
   strengths (parseCodeAnalysisResponse Completes text maxScore) =
   orPlaceholder (itemsOf body) "Code structure is present") /\
  (sectionAt "improvements:"
     ["corrected_code:"; "optimized_code:"; "code_issues:"] lines hdr body ->
   improvements (parseCodeAnalysisResponse Completes text maxScore) =
   orPlaceholder (itemsOf body) "Consider reviewing for best practices").
Proof.
  intros lines.
  split; [intros l; split;
          [apply isBullet_bulletStyle|apply stripMarker_itemOf]|].
  split; [intros mk content Hm Hc; rewrite stripMarker_itemOf;
          now apply itemOf_clean|].
  subst lines.
  repeat split; intros Hs; open_parse; now rewrite (extractSection_at Hs).
Qed.

Lemma C5_collected_items_witness :
  strengths (parseAnalysisResponse Completes strengthsReply 100)
  = [js "clear names"; js "tests"] /\
  strengths (parseCodeAnalysisResponse Completes strengthsReply 100)
  = [js "clear names"; js "tests"].
Proof.
  assert (Hs : forall stops,
             isAnyHeader stops (js "- clear names") = false ->
             isAnyHeader stops (js "some prose") = false ->
             isAnyHeader stops (js "2. 3 tests") = false ->
             isAnyHeader stops (js "IMPROVEMENTS:") = true ->
             sectionAt "strengths:" stops (splitLines strengthsReply)
               (js "STRENGTHS:")
               [js "- clear names"; js "some prose"; js "2. 3 tests"]).
  { intros stops H1 H2 H3 H4.
    exists [], [js "IMPROVEMENTS:"; js "- shorten"].
    split; [vm_compute; reflexivity|].
    split; [intros x []|].
    split; [vm_compute; reflexivity|].
    split; [intros x [<-|[<-|[<-|[]]]]; assumption|exact H4]. }
  destruct (@C5_collected_items strengthsReply 100 (js "STRENGTHS:")
              [js "- clear names"; js "some prose"; js "2. 3 tests"])
    as (_ & _ & H1 & _ & H2 & _).
  split.
  - rewrite H1; [vm_compute; reflexivity|].
    apply Hs; vm_compute; reflexivity.
  - rewrite H2; [vm_compute; reflexivity|].
    apply Hs; vm_compute; reflexivity.
Defined.

Lemma itemsOf_none body :
  (forall x, In x body -> bulletStyle x = false) -> itemsOf body = [].
Proof.
  intros H. unfold itemsOf. induction body as [|x body IH]; simpl;
    [reflexivity|].
  rewrite (H x) by now left. apply IH. intros y Hy. apply H. now right.
Qed.

Lemma extractSection_nothing marker stops lines :
  nothingCollected marker stops lines ->
  extractSection marker stops lines = [].
Proof.
  intros [H|(hdr & body & Hs & Hb)].
  - now apply extractSection_absent.
  - rewrite (extractSection_at Hs). now apply itemsOf_none.
Qed.

Lemma orPlaceholder_nonempty items placeholder :
  orPlaceholder items placeholder <> [].
Proof. destruct items; simpl; discriminate. Qed.

(** C7 as stated is false: in the reply [IMPROVEMENTS:], [none needed],
    [STRENGTHS:], [- clear] the section of [IMPROVEMENTS:], which ends at
    the marker [STRENGTHS:], has no line in bullet style, and both parsers
    return the improvements [[clear]], not the placeholder: the loop of
    the improvements does not stop at [STRENGTHS:] and collects the bullet
    line of the later section. *)
Lemma C7_bullet_of_a_later_section :
  sectionAt "improvements:" sectionMarkers
    (splitLines
       (unlines ["IMPROVEMENTS:"; "none needed"; "STRENGTHS:"; "- clear"]))
    (js "IMPROVEMENTS:") [js "none needed"] /\
  bulletStyle (js "none needed") = false /\
  improvements
    (parseAnalysisResponse Completes
       (unlines ["IMPROVEMENTS:"; "none needed"; "STRENGTHS:"; "- clear"]) 100)
  = [js "clear"] /\
  improvements
    (parseCodeAnalysisResponse Completes
       (unlines ["IMPROVEMENTS:"; "none needed"; "STRENGTHS:"; "- clear"]) 100)
  = [js "clear"] /\
  [js "clear"] <> [js "Consider reviewing for clarity"] /\
  [js "clear"] <> [js "Consider reviewing for best practices"].
Proof.
  split.
  { exists [], [js "STRENGTHS:"; js "- clear"].
    split; [vm_compute; reflexivity|].
    split; [intros x []|].
    split; [vm_compute; reflexivity|].
    split; [intros x [<-|[]]; vm_compute; reflexivity|].
    vm_compute; reflexivity. }
  repeat split; try (vm_compute; reflexivity); vm_compute; discriminate.
Qed.

(** C7 (amended): the strengths and the improvements that either parser
    returns are never empty, on the [try] path and on the [catch] path.  When no line
    begins with [strengths:] (or [improvements:]), or when the section that
    the loop reads - the lines after that line up to the loop's first stop
    marker - has no line in bullet style, the list is the one-element
    placeholder of the parser. *)
Theorem C7_placeholders text maxScore :
  let lines := splitLines text in
  (forall o,
     strengths (parseAnalysisResponse o text maxScore) <> [] /\
     improvements (parseAnalysisResponse o text maxScore) <> [] /\
     strengths (parseCodeAnalysisResponse o text maxScore) <> [] /\
     improvements (parseCodeAnalysisResponse o text maxScore) <> []) /\
  (nothingCollected "strengths:" ["improvements:"] lines ->
   strengths (parseAnalysisResponse Completes text maxScore)
   = [js "Text structure is present"]) /\
  (nothingCollected "improvements:" [] lines ->
   improvements (parseAnalysisResponse Completes text maxScore)
   = [js "Consider reviewing for clarity"]) /\
  (nothingCollected "strengths:"
     ["improvements:"; "corrected_code:"; "optimized_code:"; "code_issues:"]
     lines ->
   strengths (parseCodeAnalysisResponse Completes text maxScore)
   = [js "Code structure is present"]) /\
  (nothingCollected "improvements:"
     ["corrected_code:"; "optimized_code:"; "code_issues:"] lines ->
   improvements (parseCodeAnalysisResponse Completes text maxScore)
   = [js "Consider reviewing for best practices"]).
Proof.
  intros lines. subst lines. split.
  - intros [|]; open_parse;
      repeat split; try apply orPlaceholder_nonempty; discriminate.
  - repeat split; intros H; open_parse;
      now rewrite (extractSection_nothing H).
Qed.

Lemma C7_placeholders_witness :
  strengths (parseAnalysisResponse Completes proseOnlyReply 100)
  = [js "Text structure is present"] /\
  strengths (parseCodeAnalysisResponse Completes proseOnlyReply 100)
  = [js "Code structure is present"].
Proof.
  assert (Hs : forall stops,
             isAnyHeader stops (js "nothing stands out") = false ->
             isAnyHeader stops (js "IMPROVEMENTS:") = true ->
             nothingCollected "strengths:" stops (splitLines proseOnlyReply)).
  { intros stops H1 H2. right.
    exists (js "STRENGTHS:"), [js "nothing stands out"]. split.
    - exists [js "FEEDBACK: fine"], [js "IMPROVEMENTS:"; js "- shorten"].
      split; [vm_compute; reflexivity|].
      split; [intros x [<-|[]]; vm_compute; reflexivity|].
      split; [vm_compute; reflexivity|].
      split; [intros x [<-|[]]; assumption|exact H2].
    - intros x [<-|[]]. vm_compute. reflexivity. }
  destruct (C7_placeholders proseOnlyReply 100) as (_ & H1 & _ & H2 & _).
  split; [apply H1|apply H2]; apply Hs; vm_compute; reflexivity.
Defined.

(* ================================================================== *)
(** ** Claims about the code issues *)
(* ================================================================== *)

(** C6 as stated is false: the words captured for [TYPE:] and [SEVERITY:]
    are lower-cased and stored as they are, so an issue whose type and
    severity are outside the two enumerations is returned; and the
    [LINE:] field is optional, so a line with four fields conforms. *)
Lemma C6_type_and_severity_unchecked :
  codeIssues (parseCodeAnalysisResponse Completes
     (unlines ["CODE_ISSUES:";
               "- TYPE: Banana | SEVERITY: huge | DESCRIPTION: d | SUGGESTION: s"])
     100)
  = Some [ {| type := js "banana"; line := None; description := js "d";
              severity := js "huge"; suggestion := js "s" |} ].
Proof. vm_compute. reflexivity. Qed.

(** C6 (amended): let [body] be all the lines after the first line that
    begins with [code_issues:].  An issue is in the returned [codeIssues]
    exactly when it is built from a line of [body] that begins with [-] or
    the bullet and matches the issue pattern; its [type] and [severity] are
    the lower-cased first and second captured words, whatever they are, and
    its [line] is present when the optional [LINE:] field is.  Lines of
    [body] that do not begin with [-] or the bullet, or do not match the
    pattern, contribute nothing. *)
Theorem C6_code_issues text maxScore hdr body issues :
  sectionAt "code_issues:" [] (splitLines text) hdr body ->
  codeIssues (parseCodeAnalysisResponse Completes text maxScore) = Some issues ->
  forall i,
    In i issues <->
    exists l m,
      In l body /\ isDashed l = true /\ exec issuePattern l = Some m /\
      i = {| type := toLowerCase (capture 1 m);
             severity := toLowerCase (capture 2 m);
             line := match group 3 m with
                     | Some (d :: ds) => Some (parseInt (d :: ds))
                     | _ => None
                     end;
             description := trim (capture 4 m);
             suggestion := trim (capture 5 m) |}.
Proof.
  intros Hs. open_parse. rewrite (extractIssues_at Hs).
  intros H i.
  assert (issues = issuesLoop body) as ->.
  { destruct (issuesLoop body); [discriminate|now injection H]. }
  apply issuesLoop_In.
Qed.

Lemma C6_code_issues_witness :
  In loggedIssue [loggedIssue] <->
  exists l m,
    In l (tl (splitLines issuesReply)) /\ isDashed l = true /\
    exec issuePattern l = Some m /\
    loggedIssue = {| type := toLowerCase (capture 1 m);
                  severity := toLowerCase (capture 2 m);
                  line := match group 3 m with
                          | Some (d :: ds) => Some (parseInt (d :: ds))
                          | _ => None
                          end;
                  description := trim (capture 4 m);
                  suggestion := trim (capture 5 m) |}.
Proof.
  apply (@C6_code_issues issuesReply 100 (js "CODE_ISSUES:")).
  - exists [], []. split; [vm_compute; reflexivity|].
    split; [intros x []|]. split; [vm_compute; reflexivity|].
    split; [intros x _; reflexivity|exact I].
  - vm_compute. reflexivity.
Defined.

(* ================================================================== *)
(** ** Claims about the corrected and the optimized code *)
(* ================================================================== *)

(** C8 as stated is false: the tag of the opening fence may only hold
    word characters and must be followed at once by a line feed.  With the
    tag [c++], or with a carriage return before the line feed, the pattern
    does not match and the field is absent, although the reply holds a
    fenced block after the marker. *)
Lemma C8_tag_outside_word_characters :
  correctedCode (parseCodeAnalysisResponse Completes
     (unlines ["CORRECTED_CODE:"; "```c++"; "int x;"; "```"]) 100) = None /\
  optimizedCode (parseCodeAnalysisResponse Completes
     (unlines ["OPTIMIZED_CODE:"; "```c++"; "int x;"; "```"]) 100) = None /\
  correctedCode (parseCodeAnalysisResponse Completes
     (js "CORRECTED_CODE:" ++ [LF] ++ js "```js" ++ [13%N; LF]
        ++ js "let x;" ++ [13%N; LF] ++ js "```") 100) = None /\
  correctedCode (parseCodeAnalysisResponse Completes
     (unlines ["CORRECTED_CODE:"; "```cpp"; "int x;"; "```"]) 100)
  = Some (js "int x;").
Proof. repeat split; vm_compute; reflexivity. Qed.

(** C8 (amended): when the reply holds, at the first place where
    [CORRECTED_CODE:] (respectively [OPTIMIZED_CODE:]) is spelled in any
    letter case, the marker, then white space, then an opening fence whose
    tag is made of word characters only and is followed at once by a line
    feed, then [inner], then the first closing fence, the parser sets
    [correctedCode] (respectively [optimizedCode]) to [inner] trimmed,
    without the fences and the tag; when [inner] trimmed is empty the field
    is absent. *)
Theorem C8_fenced_code text maxScore inner :
  (fencedBlock (js "CORRECTED_CODE:") text inner ->
   correctedCode (parseCodeAnalysisResponse Completes text maxScore) =
   if isEmpty (trim inner) then None else Some (trim inner)) /\
  (fencedBlock (js "OPTIMIZED_CODE:") text inner ->
   optimizedCode (parseCodeAnalysisResponse Completes text maxScore) =
   if isEmpty (trim inner) then None else Some (trim inner)).
Proof.
  split; intros H; open_parse; rewrite (extractCode_fenced _ H);
    destruct (trim inner); reflexivity.
Qed.

Lemma C8_fenced_code_witness :
  correctedCode (parseCodeAnalysisResponse Completes fencedReply 100)
  = Some (js "let x = 1;").
Proof.
  destruct (C8_fenced_code fencedReply 100 (js "  let x = 1;" ++ [LF]))
    as [H _].
  rewrite H; [vm_compute; reflexivity|].
  exists (js "ok" ++ [LF]), (js "Corrected_Code:"), [LF], (js "js"),
         ([LF] ++ js "done").
  split; [vm_compute; reflexivity|].
  split; [split; vm_compute; reflexivity|].
  split.
  { intros i Hi. do 3 (destruct i as [|i]; [vm_compute; reflexivity|]).
    simpl in Hi. lia. }
  split; [vm_compute; reflexivity|].
  split; [vm_compute; reflexivity|].
  intros i Hi. do 13 (destruct i as [|i]; [vm_compute; reflexivity|]).
  simpl in Hi. lia.
Defined.

(* ================================================================== *)
(** ** Claims about the optional fields of the code parser *)
(* ================================================================== *)

Lemma whenNonEmpty_Some (A : Type) (l s : list A) :
  whenNonEmpty l = Some s <-> s <> [] /\ l = s.
Proof.
  destruct l as [|x l]; simpl.
  - split; [discriminate|]. intros [H <-]. now elim H.
  - split; [intros [= <-]; split; [discriminate|reflexivity]|].
    now intros [_ <-].
Qed.

Lemma issuesLoop_nothing body :
  (forall l, In l body -> isDashed l = false \/ exec issuePattern l = None) ->
  issuesLoop body = [].
Proof.
  induction body as [|x body IH]; intros H; cbn [issuesLoop]; [reflexivity|].
  fold (isDashed x).
  rewrite IH by (intros l Hl; apply H; now right).
  destruct (H x (or_introl eq_refl)) as [-> | ->]; [reflexivity|].
  destruct (isDashed x); reflexivity.
Qed.

(** C10: in the result of the code parser's [try] block, [correctedCode]
    (respectively [optimizedCode]) is present exactly when the text
    extracted for it is not empty, and is then that text; [codeIssues] is
    present exactly when at least one issue was extracted, and is then the
    list of them.  A fenced block whose inner text is empty once trimmed, a
    reply without a [code_issues:] line, and a [code_issues:] section none
    of whose lines conforms, each yield an absent field.  The result of the
    [catch] block has none of [category], [correctedCode], [optimizedCode]
    and [codeIssues]. *)
Theorem C10_optional_fields text maxScore :
  let r := parseCodeAnalysisResponse Completes text maxScore in
  let f := parseCodeAnalysisResponse Throws text maxScore in
  let lines := splitLines text in
  (forall s, correctedCode r = Some s <->
             s <> [] /\ extractCode "CORRECTED_CODE:" text = s) /\
  (forall s, optimizedCode r = Some s <->
             s <> [] /\ extractCode "OPTIMIZED_CODE:" text = s) /\
  (forall l, codeIssues r = Some l <-> l <> [] /\ extractIssues lines = l) /\
  (forall inner, fencedBlock (js "CORRECTED_CODE:") text inner ->
                 trim inner = [] -> correctedCode r = None) /\
  (forall inner, fencedBlock (js "OPTIMIZED_CODE:") text inner ->
                 trim inner = [] -> optimizedCode r = None) /\
  ((forall x, In x lines -> isHeader "code_issues:" x = false) ->
   codeIssues r = None) /\
  (forall hdr body,
     sectionAt "code_issues:" [] lines hdr body ->
     (forall l, In l body ->
                isDashed l = false \/ exec issuePattern l = None) ->
     codeIssues r = None) /\
  category f = None /\ correctedCode f = None /\ optimizedCode f = None /\
  codeIssues f = None.
Proof.
  intros r f lines. subst r f lines. open_parse.
  split; [intros s; apply whenNonEmpty_Some|].
  split; [intros s; apply whenNonEmpty_Some|].
  split; [intros l; apply whenNonEmpty_Some|].
  split; [intros inner H E; now rewrite (extractCode_fenced _ H), E|].
  split; [intros inner H E; now rewrite (extractCode_fenced _ H), E|].
  split; [intros H; now rewrite extractIssues_absent|].
  split; [|easy].
  intros hdr body Hs Hb.
  now rewrite (extractIssues_at Hs), issuesLoop_nothing.
Qed.

Lemma C10_optional_fields_witness :
  correctedCode (parseCodeAnalysisResponse Completes emptyBlockReply 100) = None /\
  codeIssues (parseCodeAnalysisResponse Completes emptyBlockReply 100) = None.
Proof.
  destruct (C10_optional_fields emptyBlockReply 100)
    as (_ & _ & _ & H1 & _ & _ & H2 & _).
  split.
  - apply (H1 (js "   " ++ [LF])); [|vm_compute; reflexivity].
    exists [], (js "CORRECTED_CODE:"), [LF], (js "js"),
           ([LF] ++ js "CODE_ISSUES:" ++ [LF] ++ js "- nothing to report").
    split; [vm_compute; reflexivity|].
    split; [split; vm_compute; reflexivity|].
    split; [intros i Hi; simpl in Hi; lia|].
    split; [vm_compute; reflexivity|].
    split; [vm_compute; reflexivity|].
    intros i Hi. do 4 (destruct i as [|i]; [vm_compute; reflexivity|]).
    simpl in Hi. lia.
  - apply (H2 (js "CODE_ISSUES:") [js "- nothing to report"]).
    + exists [js "CORRECTED_CODE:"; js "```js"; js "```"], [].
      split; [vm_compute; reflexivity|].
      split; [intros x [<-|[<-|[<-|[]]]]; vm_compute; reflexivity|].
      split; [vm_compute; reflexivity|].
      split; [intros x _; reflexivity|exact I].
    + intros l [<-|[]]. right. vm_compute. reflexivity.
Defined.

(* ================================================================== *)
(** ** Claims about [POST /summarize] *)
(* ================================================================== *)

Import Summarize.

(** The handler does reach the AI client and the table when [text] is
    truthy: with [{text: "hello"}] and a client that answers [Hi.], one
    row is written and returned. *)
Example summarize_hello :
  let w := {| gemini := fun _ => Some (js "Hi."); table := [];
              connected := true; now := 1700 |} in
  let row := {| id := 1; inputText := VString (js "hello");
                outputText := js "Hi."; createdAt := 1700 |} in
  run (postSummarize (VString (js "hello"))) w [] =
  {| aiCalls := [VString (js "hello")]; finalTable := [row];
     sent := {| status := 200; json := SummaryBody row |} |}.
Proof. reflexivity. Qed.

(** C9: when [text] is missing or falsy ([undefined], [null], [false],
    [0], the empty string), the handler answers 400 with
    [{error: "Text is required"}] before any [await]: it makes no call to
    the AI client and leaves the [Summary] table as it was, whatever the
    outside world is. *)
Theorem C9_missing_text text w :
  truthy text = false ->
  postSummarize text =
    Respond {| status := 400; json := ErrorBody (js "Text is required") |} /\
  run (postSummarize text) w [] =
    {| aiCalls := []; finalTable := table w;
       sent := {| status := 400;
                  json := ErrorBody (js "Text is required") |} |}.
Proof.
  intros H. unfold postSummarize. rewrite H. split; reflexivity.
Qed.

Lemma C9_missing_text_witness :
  run (postSummarize VUndefined) oneRowWorld [] =
    {| aiCalls := []; finalTable := table oneRowWorld;
       sent := {| status := 400;
                  json := ErrorBody (js "Text is required") |} |}.
Proof.
  apply (C9_missing_text VUndefined oneRowWorld). reflexivity.
Defined.

(* ================================================================== *)
(** ** More facts about replies, markers and the detector *)
(* ================================================================== *)

Import RegexFacts SectionFacts FenceFacts LineFacts.

Module ReplyFacts.
Import LineFacts.

Lemma split_join : forall ls,
  ls <> [] -> (forall l, In l ls -> ~ In LF l) ->
  split LF (join [LF] ls) = ls.
Proof.
  assert (Hone : forall l, ~ In LF l -> forall tl,
            split LF (l ++ LF :: tl) = l :: split LF tl).
  { induction l as [|c l IH]; intros Hl tl; cbn [app split].
    - now rewrite N.eqb_refl.
    - destruct (N.eqb_spec c LF) as [->|_]; [elim Hl; now left|].
      rewrite IH by (intros H; apply Hl; now right). reflexivity. }
  assert (Hlast : forall l, ~ In LF l -> split LF l = [l]).
  { induction l as [|c l IH]; intros Hl; cbn [split]; [reflexivity|].
    destruct (N.eqb_spec c LF) as [->|_]; [elim Hl; now left|].
    rewrite IH by (intros H; apply Hl; now right). reflexivity. }
  induction ls as [|l ls IH]; intros Hne H; [now elim Hne|].
  destruct ls as [|l' ls].
  - cbn [join]. apply Hlast, H. now left.
  - change (join [LF] (l :: l' :: ls)) with (l ++ [LF] ++ join [LF] (l' :: ls)).
    cbn [app]. rewrite Hone by (apply H; now left).
    rewrite IH; [reflexivity|discriminate|].
    intros x Hx. apply H. now right.
Qed.

Lemma splitLines_join ls :
  (forall l, In l ls -> ~ In LF l) ->
  splitLines (join [LF] ls) = filter (fun l => negb (isEmpty l)) (map trim ls).
Proof.
  intros H. unfold splitLines. destruct ls as [|l ls]; [reflexivity|].
  rewrite split_join; [reflexivity|discriminate|assumption].
Qed.

Lemma trim_blank s : forallb isSpace s = true -> trim s = [].
Proof.
  intros H. unfold trim, trimStart.
  assert (E : dropWhile isSpace s = []).
  { induction s as [|c s IH]; simpl in *; [reflexivity|].
    apply andb_prop in H as [-> H]. now apply IH. }
  now rewrite E.
Qed.

Lemma split_blank p sep : forall s,
  forallb p s = true -> forall l, In l (split sep s) -> forallb p l = true.
Proof.
  induction s as [|c s IH]; intros H l Hl; cbn [split] in Hl.
  - destruct Hl as [<-|[]]. reflexivity.
  - simpl in H. apply andb_prop in H as [Hc H].
    destruct (c =? sep)%N.
    + destruct Hl as [<-|Hl]; [reflexivity|now apply IH].
    + destruct (split sep s) as [|l0 ls] eqn:E.
      * destruct Hl as [<-|[]]. simpl. now rewrite Hc.
      * destruct Hl as [<-|Hl].
        -- simpl. rewrite Hc. apply IH; [assumption|now left].
        -- apply IH; [assumption|now right].
Qed.

Lemma splitLines_blank text :
  forallb isSpace text = true -> splitLines text = [].
Proof.
  intros H. unfold splitLines.
  assert (Hall : forall l, In l (split LF text) -> trim l = []).
  { intros l Hl. apply trim_blank. now apply (@split_blank isSpace LF text). }
  induction (split LF text) as [|l ls IH]; [reflexivity|].
  cbn [map filter]. rewrite (Hall l) by now left. cbn [isEmpty negb].
  apply IH. intros x Hx. apply Hall. now right.
Qed.

End ReplyFacts.

Module MarkerFacts.
Import CharFacts LineFacts ReplyFacts.

Lemma search_none ci r : forall s pos,
  (forall i, (i <= length s)%nat ->
             rmatch ci r (pos + i) (skipn i s) [] accept = None) ->
  search ci r pos s = None.
Proof.
  induction s as [|x s IH]; intros pos H.
  - specialize (H 0%nat (Nat.le_refl _)). simpl in H.
    rewrite Nat.add_0_r in H. simpl. now rewrite H.
  - specialize (H 0%nat) as H0. simpl in H0. rewrite Nat.add_0_r in H0.
    cbn [search]. rewrite H0 by lia. apply IH. intros i Hi.
    specialize (H (S i)). simpl in H. rewrite Nat.add_succ_r in H.
    apply H. lia.
Qed.

(** Without the marker anywhere in the reply there is no code to extract. *)
Lemma extractCode_no_marker marker text :
  (forall i, litPrefix true (js marker) (skipn i text) = false) ->
  extractCode marker text = [].
Proof.
  intros H. unfold extractCode, exec.
  cbn [p_ci p_re fencePattern seqs fold_right].
  rewrite search_none; [reflexivity|].
  intros i _. cbn [rmatch]. now rewrite rmatch_lit, H.
Qed.

Lemma forallb_skipn (p : N -> bool) : forall s i,
  forallb p s = true -> forallb p (skipn i s) = true.
Proof.
  induction s as [|x s IH]; intros [|i] H; simpl in *; try easy.
  apply andb_prop in H as [_ H]. now apply IH.
Qed.

Lemma litPrefix_blank ci a pat s :
  (33 <= a < 160)%N -> forallb isSpace s = true ->
  litPrefix ci (a :: pat) s = false.
Proof.
  intros Ha Hs. destruct s as [|x s]; [reflexivity|].
  simpl in Hs. apply andb_prop in Hs as [Hx _].
  cbn [litPrefix]. now rewrite (@chrEq_space ci a x Ha Hx).
Qed.

Lemma find_first (A : Type) (p : A -> bool) pre x rest :
  (forall y, In y pre -> p y = false) -> p x = true ->
  find p (pre ++ x :: rest) = Some x.
Proof.
  intros Hpre Hx. induction pre as [|y pre IH]; simpl.
  - now rewrite Hx.
  - rewrite (Hpre y) by now left. apply IH.
    intros z Hz. apply Hpre. now right.
Qed.

Lemma find_none (A : Type) (p : A -> bool) l :
  (forall y, In y l -> p y = false) -> find p l = None.
Proof.
  induction l as [|y l IH]; intros H; simpl; [reflexivity|].
  rewrite (H y) by now left. apply IH. intros z Hz. apply H. now right.
Qed.

Lemma trim_trimStart s : trim (dropWhile isSpace s) = trim s.
Proof. unfold trim, trimStart. now rewrite dropWhile_idem. Qed.

Lemma extractCategory_at (lines pre : list jsstring) (w rest : jsstring)
    (post : list jsstring) :
  lines = pre ++ (w ++ rest) :: post ->
  (forall x, In x pre -> isHeader "category:" x = false) ->
  spelled (js "category:") w ->
  extractCategory lines = Some (trim rest).
Proof.
  intros -> Hpre Hw. unfold extractCategory.
  match goal with |- option_map _ ?t = _ =>
    assert (E : t = Some (w ++ rest))
      by (apply find_first;
          [exact Hpre|exact (@isHeader_spelled "category:" w rest eq_refl Hw)]);
    rewrite E
  end.
  cbn [option_map]. unfold categoryPattern.
  now rewrite (@replace_marker_prefix _ w rest Hw), trim_trimStart.
Qed.

End MarkerFacts.

Module DetectFacts.
Import Detect CharFacts ScoreFacts.

Lemma includes_app a w b : includes (a ++ w ++ b) w = true.
Proof.
  induction a as [|x a IH]; simpl app.
  - destruct (w ++ b) eqn:E; cbn [includes]; rewrite <- E;
      now rewrite startsWith_app.
  - cbn [includes]. rewrite IH. apply orb_true_r.
Qed.

(** An alternation matches as soon as one of its branches does. *)
Lemma rmatch_alts ci r : forall rs pos s c k,
  In r rs -> rmatch ci r pos s c k <> None ->
  rmatch ci (alts rs) pos s c k <> None.
Proof.
  induction rs as [|r0 rs IH]; intros pos s c k Hin Hr; [destruct Hin|].
  destruct rs as [|r1 rs].
  - destruct Hin as [->|[]]. exact Hr.
  - change (alts (r0 :: r1 :: rs)) with (Alt r0 (alts (r1 :: rs))).
    cbn [rmatch]. destruct (rmatch ci r0 pos s c k) eqn:E; [discriminate|].
    destruct Hin as [->|Hin]; [contradiction|]. now apply IH.
Qed.

Lemma litPrefix_refl ci w rest : litPrefix ci w (w ++ rest) = true.
Proof.
  induction w as [|a w IH]; simpl; [reflexivity|].
  rewrite IH. unfold chrEq. destruct ci; now rewrite N.eqb_refl.
Qed.

Lemma skipn_exact (w rest : jsstring) : skipn (length w) (w ++ rest) = rest.
Proof. induction w; simpl; auto. Qed.

(** [^] holds after [pre]: a pattern that matches there makes the test
    true. *)
Lemma testFrom_line ci r s : forall pre b pos,
  (pre = [] -> b = true) -> (pre <> [] -> endsLine pre = true) ->
  rmatch ci r (pos + length pre) s [] accept <> None ->
  testFrom ci r b pos (pre ++ s) = true.
Proof.
  induction pre as [|x pre IH]; intros b pos Hb Hl Hm.
  - rewrite (Hb eq_refl). simpl in Hm. rewrite Nat.add_0_r in Hm.
    destruct (rmatch ci r pos s [] accept) eqn:E; [|contradiction].
    destruct s; simpl; now rewrite E.
  - cbn [app testFrom]. rewrite (IH (isLineTerminator x) (S pos)).
    + apply orb_true_r.
    + intros ->. specialize (Hl ltac:(discriminate)). exact Hl.
    + intros Hne. specialize (Hl ltac:(discriminate)).
      unfold endsLine in *. destruct pre; [now elim Hne|exact Hl].
    + simpl in Hm. now rewrite Nat.add_succ_r in Hm.
Qed.

Lemma testMultiline_line p pre s :
  endsLine pre = true ->
  rmatch (p_ci p) (p_re p) (0 + length pre) s [] accept <> None ->
  testMultiline p (pre ++ s) = true.
Proof.
  intros Hl Hm. unfold testMultiline. now apply testFrom_line.
Qed.

Lemma firstSignature_some ps text :
  existsb (fun pl => testMultiline (fst pl) text) ps = true ->
  firstSignature ps text <> None.
Proof.
  induction ps as [|[p lang] ps IH]; simpl; [discriminate|].
  destruct (testMultiline p text); [discriminate|exact IH].
Qed.

Lemma detect_signature text :
  existsb (fun pl => testMultiline (fst pl) text) codePatterns = true ->
  isCode (detectInputType text) = true.
Proof.
  intros H. apply firstSignature_some in H. unfold detectInputType.
  destruct (firstSignature codePatterns text); [reflexivity|contradiction].
Qed.

End DetectFacts.

(* ================================================================== *)
(** ** Further properties of the parsers *)
(* ================================================================== *)

Import LineFacts ReplyFacts CharFacts CaptureFacts ExactFacts MarkerFacts
       DetectFacts NumFacts RegexFacts.

(** X1: a reply written as lines joined by line feeds is read line by line,
    in order: each line trimmed, the lines that are empty once trimmed left
    out. *)
Theorem lines_of_reply (ls : list jsstring) :
  (forall l, In l ls -> ~ In LF l) ->
  splitLines (join [LF] ls) = filter (fun l => negb (isEmpty l)) (map trim ls).
Proof. apply splitLines_join. Qed.

Lemma lines_of_reply_witness :
  splitLines (join [LF] [js "  SCORE: 5 "; js "   "; js "ok"])
  = [js "SCORE: 5"; js "ok"].
Proof.
  rewrite lines_of_reply; [vm_compute; reflexivity|].
  intros l [<-|[<-|[<-|[]]]]; vm_compute; intuition discriminate.
Defined.

(** X2: a reply that is empty or holds white space only gives the default
    result of each parser: score 0, the default feedback sentence, the two
    placeholders, and no category, code or issues. *)
Theorem blank_reply_defaults text maxScore :
  forallb isSpace text = true ->
  parseAnalysisResponse Completes text maxScore =
    {| score := 0; feedback := js "Analysis completed successfully";
       strengths := [js "Text structure is present"];
       improvements := [js "Consider reviewing for clarity"];
       category := None; correctedCode := None; optimizedCode := None;
       codeIssues := None |} /\
  parseCodeAnalysisResponse Completes text maxScore =
    {| score := 0; feedback := js "Code analysis completed successfully";
       strengths := [js "Code structure is present"];
       improvements := [js "Consider reviewing for best practices"];
       category := None; correctedCode := None; optimizedCode := None;
       codeIssues := None |}.
Proof.
  intros H. unfold parseAnalysisResponse, parseCodeAnalysisResponse,
    textParse, codeParse.
  rewrite (splitLines_blank text H).
  rewrite !extractCode_no_marker; [split; reflexivity| |];
    intros i; apply litPrefix_blank;
    solve [vm_compute; split; easy | now apply forallb_skipn].
Qed.

Lemma blank_reply_defaults_witness :
  score (parseCodeAnalysisResponse Completes (js "  " ++ [LF; 9%N; 13%N; LF]) 100)
  = 0.
Proof.
  destruct (@blank_reply_defaults (js "  " ++ [LF; 9%N; 13%N; LF]) 100
              eq_refl) as [_ ->].
  reflexivity.
Defined.

(** X3: the category is the text of the first line that begins with
    [category:], in any letter case, after the marker, trimmed. *)
Theorem category_of_first_line text maxScore pre w rest post :
  splitLines text = pre ++ (w ++ rest) :: post ->
  (forall x, In x pre -> isHeader "category:" x = false) ->
  spelled (js "category:") w ->
  category (parseAnalysisResponse Completes text maxScore) = Some (trim rest) /\
  category (parseCodeAnalysisResponse Completes text maxScore)
  = Some (trim rest).
Proof.
  intros Hl Hpre Hw. open_parse.
  now rewrite (@extractCategory_at _ pre w rest post Hl Hpre Hw).
Qed.

Lemma category_of_first_line_witness :
  category (parseAnalysisResponse Completes
              (unlines ["SCORE: 7"; "Category:  short essay "; "CATEGORY: x"])
              100)
  = Some (js "short essay").
Proof.
  destruct (@category_of_first_line
              (unlines ["SCORE: 7"; "Category:  short essay "; "CATEGORY: x"])
              100 [js "SCORE: 7"] (js "Category:") (js "  short essay")
              [js "CATEGORY: x"]) as [H _].
  - vm_compute. reflexivity.
  - intros x [<-|[]]. vm_compute. reflexivity.
  - split; vm_compute; reflexivity.
  - rewrite H. vm_compute. reflexivity.
Defined.

(** X4: a reply without a line that begins with [category:] has no
    category, and one without a line that begins with [feedback:] gets the
    default feedback sentence of the parser. *)
Theorem missing_markers text maxScore :
  ((forall x, In x (splitLines text) -> isHeader "category:" x = false) ->
   category (parseAnalysisResponse Completes text maxScore) = None /\
   category (parseCodeAnalysisResponse Completes text maxScore) = None) /\
  ((forall x, In x (splitLines text) -> isHeader "feedback:" x = false) ->
   feedback (parseAnalysisResponse Completes text maxScore)
   = js "Analysis completed successfully" /\
   feedback (parseCodeAnalysisResponse Completes text maxScore)
   = js "Code analysis completed successfully").
Proof.
  split; intros H; open_parse.
  - unfold extractCategory.
    match goal with |- option_map _ ?t = _ /\ _ =>
      assert (E : t = None) by (apply find_none; exact H); rewrite E
    end.
    split; reflexivity.
  - unfold extractFeedback.
    match goal with |- context [findIndex ?p ?l] =>
      assert (E : findIndex p l = None) by (apply findIndex_none; exact H);
      rewrite E
    end.
    split; reflexivity.
Qed.

Lemma missing_markers_witness :
  category (parseAnalysisResponse Completes
              (unlines ["SCORE: 7"; "All good"]) 100) = None /\
  feedback (parseCodeAnalysisResponse Completes
              (unlines ["SCORE: 7"; "All good"]) 100)
  = js "Code analysis completed successfully".
Proof.
  destruct (missing_markers (unlines ["SCORE: 7"; "All good"]) 100)
    as [H1 H2].
  split.
  - apply H1. intros x [<-|[<-|[]]]; vm_compute; reflexivity.
  - apply H2. intros x [<-|[<-|[]]]; vm_compute; reflexivity.
Defined.

(** X5: when the first line that matches a score pattern is [SCORE:], in
    any letter case, then white space, then the decimal digits of an
    integer [n] with [0 < n < 2^53], not followed by a digit or a dot, the
    score is [min(n, maxScore)]. *)
Theorem integer_score text maxScore pre w gap ds rest post :
  0 < maxScore ->
  splitLines text = pre ++ (w ++ gap ++ ds ++ rest) :: post ->
  (forall x, In x pre -> tryPatterns scorePatterns x = None) ->
  spelled (js "SCORE:") w -> forallb isSpace gap = true ->
  isNumeral ds = true ->
  stopsAt (fun c => isDigit c || (c =? 46)%N) rest ->
  0 < digitsValue ds < 2 ^ 53 ->
  score (parseAnalysisResponse Completes text maxScore)
  = Z.min (digitsValue ds) maxScore /\
  score (parseCodeAnalysisResponse Completes text maxScore)
  = Z.min (digitsValue ds) maxScore.
Proof.
  intros HM Hl Hpre Hw Hgap Hds Hrest [Hpos Hlt].
  assert (E : scanScore maxScore 0 (splitLines text)
              = Z.min (digitsValue ds) maxScore).
  { rewrite Hl, scanScore_skip by assumption. cbn [scanScore].
    rewrite (@score_line_match w gap ds rest Hw Hgap Hds Hrest).
    unfold lineScore, capture, group. cbn [m_caps lookup Nat.eqb].
    destruct (@parse_numeral ds maxScore Hds Hlt) as [-> _].
    destruct (Z.ltb_spec 0 (Z.min (digitsValue ds) maxScore)); [reflexivity|].
    lia. }
  open_parse. now rewrite E.
Qed.

Lemma integer_score_witness :
  score (parseAnalysisResponse Completes
           (unlines ["Review"; "score:  75/100"; "SCORE: 3"]) 100) = 75.
Proof.
  destruct (@integer_score
              (unlines ["Review"; "score:  75/100"; "SCORE: 3"]) 100
              [js "Review"] (js "score:") (js "  ") (js "75") (js "/100")
              [js "SCORE: 3"]) as [H _].
  - lia.
  - vm_compute. reflexivity.
  - intros x [<-|[]]. vm_compute. reflexivity.
  - split; vm_compute; reflexivity.
  - reflexivity.
  - reflexivity.
  - reflexivity.
  - vm_compute. split; reflexivity.
  - rewrite H. vm_compute. reflexivity.
Defined.

(** X6: on the [catch] path the score comes from the first run of decimal
    digits anywhere in the reply, whatever it stands for: for the digits of
    an integer [n < 2^53] it is [min(n, maxScore)]. *)
Theorem fallback_first_number text maxScore pre ds rest :
  text = pre ++ ds ++ rest ->
  existsb isDigit pre = false -> isNumeral ds = true ->
  stopsAt isDigit rest -> digitsValue ds < 2 ^ 53 ->
  score (parseAnalysisResponse Throws text maxScore)
  = Z.min (digitsValue ds) maxScore /\
  score (parseCodeAnalysisResponse Throws text maxScore)
  = Z.min (digitsValue ds) maxScore.
Proof.
  intros -> Hpre Hds Hrest Hlt. open_parse. unfold fallbackScore.
  destruct (@fallback_first_numeral pre ds rest Hpre Hds Hrest)
    as (m & -> & ->).
  now destruct (@parse_numeral ds maxScore Hds Hlt) as [_ ->].
Qed.

Lemma fallback_first_number_witness :
  score (parseAnalysisResponse Throws (js "Error 404: quota, SCORE: 80") 1000)
  = 404.
Proof.
  destruct (@fallback_first_number (js "Error 404: quota, SCORE: 80") 1000
              (js "Error ") (js "404") (js ": quota, SCORE: 80")) as [H _];
    [reflexivity|reflexivity|reflexivity|reflexivity|reflexivity|].
  rewrite H. reflexivity.
Defined.

(** X7: when [CORRECTED_CODE:] (respectively [OPTIMIZED_CODE:]) is spelled
    nowhere in the reply, in any letter case, the code parser returns no
    [correctedCode] (respectively [optimizedCode]). *)
Theorem no_marker_no_code text maxScore :
  ((forall i, litPrefix true (js "CORRECTED_CODE:") (skipn i text) = false) ->
   correctedCode (parseCodeAnalysisResponse Completes text maxScore) = None) /\
  ((forall i, litPrefix true (js "OPTIMIZED_CODE:") (skipn i text) = false) ->
   optimizedCode (parseCodeAnalysisResponse Completes text maxScore) = None).
Proof.
  split; intros H; open_parse; now rewrite extractCode_no_marker.
Qed.

Lemma no_marker_no_code_witness :
  correctedCode (parseCodeAnalysisResponse Completes
                   (unlines ["```js"; "x"; "```"]) 100) = None.
Proof.
  destruct (no_marker_no_code (unlines ["```js"; "x"; "```"]) 100) as [H _].
  apply H. intros i.
  do 12 (destruct i as [|i]; [vm_compute; reflexivity|]).
  destruct i; reflexivity.
Defined.

Import Detect.

(** X8: a text with a line that begins with one of [import], [from],
    [export], [const], [let], [var], [function], [class] followed by white
    space is code in language [javascript]: the first pattern of the list
    wins, also over the later patterns (Python, Java, Go, Rust) that list
    some of the same words. *)
Theorem keyword_line_is_javascript text pre kw sp rest :
  text = pre ++ js kw ++ sp :: rest ->
  endsLine pre = true ->
  In kw ["import"; "from"; "export"; "const"; "let"; "var"; "function";
         "class"] ->
  isSpace sp = true ->
  detectInputType text = {| isCode := true; language := js "javascript" |}.
Proof.
  intros -> Hl Hkw Hsp. unfold detectInputType.
  cbn [codePatterns firstSignature].
  rewrite testMultiline_line; [reflexivity|assumption|].
  cbn [p_ci p_re seqs fold_right rmatch].
  apply rmatch_alts with (r := lit (js kw)).
  - unfold words. apply in_map_iff. now exists kw.
  - rewrite rmatch_lit, litPrefix_refl, skipn_exact.
    unfold spaces. cbn [rmatch]. rewrite Hsp.
    apply ScoreFacts.starGreedy_total. discriminate.
Qed.

Lemma keyword_line_is_javascript_witness :
  detectInputType (unlines ["# a Python module"; "import os"; "print(1)"])
  = {| isCode := true; language := js "javascript" |}.
Proof.
  apply (@keyword_line_is_javascript _
           (js "# a Python module" ++ [LF]) "import" 32%N
           (js "os" ++ [LF] ++ js "print(1)")).
  - vm_compute. reflexivity.
  - vm_compute. reflexivity.
  - now left.
  - reflexivity.
Defined.

(** X9: a text with a line that begins with [#] or with [.] is always
    classified as code. *)
Theorem hash_or_dot_line_is_code text pre c rest :
  text = pre ++ c :: rest ->
  endsLine pre = true ->
  c = 35%N \/ c = 46%N ->
  isCode (detectInputType text) = true.
Proof.
  intros -> Hl Hc. apply detect_signature.
  apply existsb_exists.
  exists (nth 9 codePatterns ({| p_ci := false; p_re := Eps |}, "")).
  split; [cbn; tauto|].
  cbn [nth codePatterns fst].
  apply testMultiline_line; [assumption|].
  cbn [p_ci p_re rmatch].
  destruct Hc as [-> | ->].
  - apply rmatch_alts with (r := Chr 35); [cbn; tauto|].
    cbn [rmatch]. change (chrEq false 35 35) with true. discriminate.
  - apply rmatch_alts with (r := Chr 46); [cbn; tauto|].
    cbn [rmatch]. change (chrEq false 46 46) with true. discriminate.
Qed.

Lemma hash_or_dot_line_is_code_witness :
  isCode (detectInputType (unlines ["My notes"; "# Groceries"; "milk"])) = true.
Proof.
  apply (@hash_or_dot_line_is_code _ (js "My notes" ++ [LF]) 35%N
           (js " Groceries" ++ [LF] ++ js "milk")).
  - vm_compute. reflexivity.
  - vm_compute. reflexivity.
  - now left.
Defined.

(** X10: a text that holds one of the characters [{ } ( ) ;] and, anywhere,
    one of the words [function], [class], [const], [def], [public],
    [private] is classified as code, whatever else it is. *)
Theorem punctuation_and_keyword_is_code text c a kw b :
  In c text -> isCodePunctuation c = true ->
  In kw codeKeywords -> text = a ++ js kw ++ b ->
  isCode (detectInputType text) = true.
Proof.
  intros Hc Hp Hkw Ht. unfold detectInputType.
  destruct (firstSignature codePatterns text); [reflexivity|].
  cbn [isCode]. unfold hasCodeStructure. apply andb_true_intro. split.
  - apply existsb_exists. now exists c.
  - apply existsb_exists. exists kw. split; [assumption|].
    rewrite Ht. apply includes_app.
Qed.

Lemma punctuation_and_keyword_is_code_witness :
  isCode (detectInputType (js "The definition (see above) is short")) = true.
Proof.
  apply (@punctuation_and_keyword_is_code _ 40%N (js "The ") "def"
           (js "inition (see above) is short")).
  - vm_compute. tauto.
  - reflexivity.
  - cbn. tauto.
  - reflexivity.
Defined.

Import Analyze.

(** X11: for an input that is empty or white space only, [analyzeText]
    rejects with [Failed to analyze text: Input text cannot be empty] and
    sends nothing to the AI client. *)
Theorem blank_input_rejected o inputText opts gemini :
  forallb isSpace inputText = true ->
  runTask (analyzeText o inputText opts) gemini [] =
  ([], Rejected
         (Known (js "Failed to analyze text: Input text cannot be empty"))).
Proof.
  intros H. unfold analyzeText. now rewrite (trim_blank inputText H).
Qed.

Lemma blank_input_rejected_witness :
  runTask (analyzeText Completes (js "  " ++ [LF]) noOptions)
          (fun _ => Reply (js "SCORE: 90")) [] =
  ([], Rejected
         (Known (js "Failed to analyze text: Input text cannot be empty"))).
Proof. apply blank_input_rejected. reflexivity. Defined.

(** X12: for an input that is not blank, [analyzeText] makes exactly one
    call to the AI client.  When the client replies, the promise resolves
    with a result whose score lies in [[0, maxScore]] ([maxScore] being 100
    when the option is left out) and whose strengths and improvements are
    not empty, provided [maxScore > 0] and the parser's [try] block
    completes or [maxScore >= 50]. *)
Theorem analyzeText_one_call o inputText opts gemini :
  isEmpty (trim inputText) = false ->
  let m := withDefault (maxScore opts) 100 in
  let run := runTask (analyzeText o inputText opts) gemini [] in
  exists p,
    fst run = [p] /\
    (forall reply,
       gemini p = Reply reply ->
       0 < m -> o = Completes \/ 50 <= m ->
       exists r, snd run = Resolved r /\
                 0 <= score r <= m /\
                 strengths r <> [] /\ improvements r <> []).
Proof.
  intros Hne m run. subst run. unfold analyzeText. rewrite Hne.
  fold m. cbn [runTask app].
  match goal with |- context [gemini ?q] => set (p := q) end.
  exists p. split; [destruct (gemini p); reflexivity|].
  intros reply Hg Hm Ho. rewrite Hg. cbn [snd runTask].
  eexists. split; [reflexivity|].
  destruct (isCode (detectInputType inputText) || isCodeCriteria (criteria opts)).
  - split; [apply (@score_in_range o reply m Hm); tauto|].
    destruct o; cbn; split;
      (apply orPlaceholder_nonempty || discriminate).
  - split; [apply (@score_in_range o reply m Hm); tauto|].
    destruct o; cbn; split;
      (apply orPlaceholder_nonempty || discriminate).
Qed.

Lemma analyzeText_one_call_witness :
  exists p,
    fst (runTask (analyzeText Throws (js "A short essay.") noOptions)
                 (fun _ => Reply (js "no marks")) []) = [p] /\
    (forall reply,
       (fun _ : prompt => Reply (js "no marks")) p = Reply reply ->
       0 < 100 -> Throws = Completes \/ 50 <= 100 ->
       exists r,
         snd (runTask (analyzeText Throws (js "A short essay.") noOptions)
                      (fun _ => Reply (js "no marks")) []) = Resolved r /\
         0 <= score r <= 100 /\
         strengths r <> [] /\ improvements r <> []).
Proof.
  apply (@analyzeText_one_call Throws (js "A short essay.") noOptions
           (fun _ => Reply (js "no marks"))).
  reflexivity.
Defined.

(** X13: for an input that [detectInputType] takes for code, the
    [criteria] option has no effect at all. *)
Theorem criteria_ignored_for_code o inputText c1 c2 m f l t :
  isCode (detectInputType inputText) = true ->
  analyzeText o inputText
    {| criteria := c1; maxScore := m; focusAreas := f; optLanguage := l;
       analysisType := t |} =
  analyzeText o inputText
    {| criteria := c2; maxScore := m; focusAreas := f; optLanguage := l;
       analysisType := t |}.
Proof.
  intros H. unfold analyzeText. cbn [criteria maxScore focusAreas optLanguage
    analysisType]. rewrite H. reflexivity.
Qed.

Lemma criteria_ignored_for_code_witness :
  analyzeWriting Completes (js "The definition (see above) is short") =
  analyzeAcademicWork Completes (js "The definition (see above) is short").
Proof.
  apply (@criteria_ignored_for_code Completes
           (js "The definition (see above) is short")
           (Some (js "writing")) (Some (js "academic")) None None None None).
  vm_compute. reflexivity.
Defined.

(** X14: with [criteria: 'code'], as in [analyzeCode], [correctCode],
    [optimizeCode] and [fullCodeAnalysis], an input that is not blank is
    sent with the code prompt and the reply goes to the code parser,
    whatever [detectInputType] says. *)
Theorem code_criteria_forces_code_parser o inputText opts gemini reply :
  isEmpty (trim inputText) = false ->
  criteria opts = Some (js "code") ->
  let m := withDefault (maxScore opts) 100 in
  let p := CodePrompt inputText m (withDefault (focusAreas opts) [])
             (orString (optLanguage opts)
                       (language (detectInputType inputText)))
             (withDefault (analysisType opts) (js "all")) in
  gemini p = Reply reply ->
  runTask (analyzeText o inputText opts) gemini [] =
  ([p], Resolved (parseCodeAnalysisResponse o reply m)).
Proof.
  intros Hne Hc m p Hg. subst p m. unfold analyzeText. rewrite Hne, Hc.
  change (isCodeCriteria (Some (js "code"))) with true.
  rewrite orb_true_r. cbn [runTask app]. now rewrite Hg.
Qed.

Lemma code_criteria_forces_code_parser_witness :
  runTask (correctCode Completes (js "plain words") None)
          (fun _ => Reply (js "SCORE: 40")) [] =
  ([CodePrompt (js "plain words") 100 [] (js "javascript") (js "correct")],
   Resolved (parseCodeAnalysisResponse Completes (js "SCORE: 40") 100)).
Proof.
  apply (@code_criteria_forces_code_parser Completes (js "plain words")
           (codeOptions None "correct") (fun _ => Reply (js "SCORE: 40"))
           (js "SCORE: 40")); reflexivity.
Defined.

(** X15: the handler of [POST /analyze], on a decoded body whose [text] is
    absent or a string and whose [options] are absent or an
    [AnalysisOptions] object, never answers 400 itself.  Without [text] it
    answers 500 without a call to the AI client; in every case its status
    is 200 or 500 and at most one call is made.  What the body decoder
    mounted in front of the router answers on its own is not part of the
    handler. *)
Theorem postAnalyze_statuses o req gemini :
  (text req = None ->
   postAnalyze o req gemini =
   ([], {| Analyze.status := 500;
           Analyze.json :=
             ErrorBody (FollowedByEngineText (js "Failed to analyze text: "))
        |})) /\
  (Analyze.status (snd (postAnalyze o req gemini)) = 200%nat \/
   Analyze.status (snd (postAnalyze o req gemini)) = 500%nat) /\
  (length (fst (postAnalyze o req gemini)) <= 1)%nat.
Proof.
  split; [intros H; unfold postAnalyze; now rewrite H|].
  unfold postAnalyze. destruct (text req) as [t|]; [|cbn; lia].
  unfold analyzeText. destruct (isEmpty (trim t)); [cbn; lia|].
  cbn [runTask app].
  match goal with |- context [gemini ?p] => destruct (gemini p) end;
    cbn; lia.
Qed.

Lemma postAnalyze_statuses_witness :
  postAnalyze Completes {| text := None; options := None |}
              (fun _ => Reply (js "SCORE: 90")) =
  ([], {| Analyze.status := 500;
          Analyze.json :=
            ErrorBody (FollowedByEngineText (js "Failed to analyze text: "))
       |}).
Proof.
  destruct (postAnalyze_statuses Completes {| text := None; options := None |}
              (fun _ => Reply (js "SCORE: 90"))) as [H _].
  apply H. reflexivity.
Defined.

(** X17: [POST /summarize] with a truthy [text], when the AI client
    answers [summary] and the table accepts the row: the client is called
    once with [text], exactly one row is added, holding [text] and
    [summary], and that row is the body of the 200 answer. *)
Theorem summarize_persists text w summary :
  truthy text = true ->
  Summarize.gemini w text = Some summary ->
  connected w = true ->
  exists row,
    Summarize.run (postSummarize text) w [] =
    {| aiCalls := [text]; finalTable := table w ++ [row];
       sent := {| Summarize.status := 200;
                  Summarize.json := SummaryBody row |} |} /\
    inputText row = text /\ outputText row = summary.
Proof.
  intros Ht Hg Hc. unfold postSummarize. rewrite Ht.
  cbn [negb Summarize.run app]. rewrite Hg. cbn [Summarize.run].
  unfold insert. rewrite Hc. eexists. split; [reflexivity|]. split; reflexivity.
Qed.

Lemma summarize_persists_witness :
  exists row,
    Summarize.run (postSummarize (VString (js "hello"))) oneRowWorld [] =
    {| aiCalls := [VString (js "hello")];
       finalTable := table oneRowWorld ++ [row];
       sent := {| Summarize.status := 200;
                  Summarize.json := SummaryBody row |} |} /\
    inputText row = VString (js "hello") /\ outputText row = js "Hi.".
Proof.
  apply (@summarize_persists (VString (js "hello")) oneRowWorld (js "Hi."));
    reflexivity.
Defined.

(** X18: [POST /summarize] with a truthy [text], when the AI client fails
    or the table refuses the row: the answer is 500 with
    [{error: "Something went wrong"}] and the table is left as it was; when
    the client fails, no write is attempted. *)
Theorem summarize_failure text w :
  truthy text = true ->
  Summarize.gemini w text = None \/ connected w = false ->
  Summarize.run (postSummarize text) w [] =
  {| aiCalls := [text]; finalTable := table w;
     sent := {| Summarize.status := 500;
                Summarize.json :=
                  Summarize.ErrorBody (js "Something went wrong") |} |}.
Proof.
  intros Ht H. unfold postSummarize. rewrite Ht.
  cbn [negb Summarize.run app].
  destruct (Summarize.gemini w text) as [summary|] eqn:Hg.
  - destruct H as [H|H]; [discriminate|].
    cbn [Summarize.run]. unfold insert. rewrite H. reflexivity.
  - reflexivity.
Qed.

Lemma summarize_failure_witness :
  Summarize.run (postSummarize (VString (js "hello")))
    {| Summarize.gemini := fun _ => None; table := []; connected := true;
       now := 0 |} [] =
  {| aiCalls := [VString (js "hello")]; finalTable := [];
     sent := {| Summarize.status := 500;
                Summarize.json :=
                  Summarize.ErrorBody (js "Something went wrong") |} |}.
Proof.
  apply (@summarize_failure (VString (js "hello"))
           {| Summarize.gemini := fun _ => None; table := [];
              connected := true; now := 0 |}).
  - reflexivity.
  - now left.
Defined.

Module StepFacts.
Import RegexFacts.

Lemma rmatch_seq ci r1 r2 pos s c k :
  rmatch ci (Seq r1 r2) pos s c k =
  rmatch ci r1 pos s c (fun pos' s' c' => rmatch ci r2 pos' s' c' k).
Proof. reflexivity. Qed.

Lemma rmatch_lit_here ci w rest pos c k r :
  k (pos + length w)%nat rest c = Some r ->
  rmatch ci (lit w) pos (w ++ rest) c k = Some r.
Proof.
  intros H.
  now rewrite rmatch_lit, DetectFacts.litPrefix_refl, DetectFacts.skipn_exact.
Qed.

Lemma rmatch_chr_here ci a rest pos c k r :
  k (S pos) rest c = Some r ->
  rmatch ci (Chr a) pos ([a] ++ rest) c k = Some r.
Proof.
  intros H. cbn [rmatch app]. unfold chrEq.
  destruct ci; now rewrite N.eqb_refl.
Qed.

Lemma rmatch_star_here ci p run rest pos c k r :
  forallb p run = true -> stopsAt p rest ->
  k (pos + length run)%nat rest c = Some r ->
  rmatch ci (Star p) pos (run ++ rest) c k = Some r.
Proof.
  intros Hrun Hrest H. cbn [rmatch]. apply starGreedy_max.
  now destruct (@dropWhile_app_stop p run rest Hrun Hrest) as [-> ->].
Qed.

Lemma rmatch_group_here ci n p run rest pos c k r :
  run <> [] -> forallb p run = true -> stopsAt p rest ->
  k (pos + length run)%nat rest ((n, run) :: c) = Some r ->
  rmatch ci (Grp n (Plus p)) pos (run ++ rest) c k = Some r.
Proof.
  intros Hne Hrun Hrest H. destruct run as [|d run]; [now elim Hne|].
  cbn [forallb] in Hrun. apply andb_prop in Hrun as [Hd Hrun].
  cbn [rmatch app]. rewrite Hd. apply starGreedy_max.
  destruct (@dropWhile_app_stop p run rest Hrun Hrest) as [-> ->].
  assert (El : (S pos + length run - pos = length (d :: run))%nat)
    by (cbn [length]; lia).
  rewrite El. change (d :: run ++ rest) with ((d :: run) ++ rest).
  rewrite FenceFacts.firstn_exact.
  cbn [length] in H. now rewrite Nat.add_succ_r in H.
Qed.

Lemma rmatch_opt_here ci r1 pos s c k r :
  rmatch ci r1 pos s c k = Some r -> rmatch ci (Opt r1) pos s c k = Some r.
Proof. intros H. cbn [rmatch]. now rewrite H. Qed.

Lemma rmatch_eps ci pos s c k : rmatch ci Eps pos s c k = k pos s c.
Proof. reflexivity. Qed.

End StepFacts.

Module CrlfFacts.
Import LineFacts ReplyFacts.

Lemma dropWhile_snoc_keep p (l : jsstring) c :
  dropWhile p l <> [] -> dropWhile p (l ++ [c]) = dropWhile p l ++ [c].
Proof.
  induction l as [|x l IH]; simpl; intros H; [now elim H|].
  destruct (p x); [now apply IH|reflexivity].
Qed.

Lemma dropWhile_all p (l : jsstring) :
  dropWhile p l = [] -> forallb p l = true.
Proof.
  induction l as [|x l IH]; simpl; [reflexivity|].
  destruct (p x); [exact IH|discriminate].
Qed.

(** White space at the end of a line does not survive [trim]. *)
Lemma trim_snoc_space l c : isSpace c = true -> trim (l ++ [c]) = trim l.
Proof.
  intros Hc. destruct (dropWhile isSpace l) as [|x t] eqn:E.
  - rewrite (trim_blank l (dropWhile_all _ _ E)).
    apply trim_blank. rewrite forallb_app, (dropWhile_all _ _ E). simpl.
    now rewrite Hc.
  - unfold trim, trimStart, trimEnd.
    rewrite dropWhile_snoc_keep by (rewrite E; discriminate).
    rewrite rev_app_distr. simpl. now rewrite Hc.
Qed.

End CrlfFacts.


Module IssueFacts.
Import StepFacts CharFacts CrlfFacts.

Lemma stopsAt_field p s rest :
  isField p s -> stopsAt isSpace (s ++ rest).
Proof.
  intros (Hne & _ & Hs). destruct s as [|c s]; [now elim Hne|exact Hs].
Qed.

Lemma isWordChar_not_space c : isWordChar c = true -> isSpace c = false.
Proof.
  unfold isWordChar, isDigit, between.
  rewrite !orb_true_iff, !andb_true_iff, !N.leb_le, N.eqb_eq. intros H.
  destruct (isSpace c) eqn:E; [|reflexivity].
  apply isSpace_range in E. lia.
Qed.

Lemma stopsAt_run (p : N -> bool) s rest :
  s <> [] -> forallb p s = true ->
  (forall c, p c = true -> isSpace c = false) ->
  stopsAt isSpace (s ++ rest).
Proof.
  intros Hne Hs Hp. destruct s as [|c s]; [now elim Hne|].
  simpl in Hs. apply andb_prop in Hs as [Hc _]. cbn. now apply Hp.
Qed.

(** One step of a match along a sequence. *)
Ltac next := cbv beta; rewrite ?rmatch_eps; repeat rewrite rmatch_seq.
Ltac word := next; apply rmatch_lit_here.
Ltac blank := next; apply rmatch_star_here; [reflexivity| |].
Ltac pipe := next; apply rmatch_chr_here.
Ltac field := next; apply rmatch_group_here.

(** The issue pattern on a line in the layout of the prompt. *)
Lemma issueLine_match ty sev ln d sg :
  ty <> [] -> forallb isWordChar ty = true ->
  sev <> [] -> forallb isWordChar sev = true ->
  isNumeral ln = true ->
  isField isNotPipe d -> isField isDot sg ->
  exec issuePattern (issueLine ty sev ln d sg) =
  Some {| m_index := 2; m_rest := [];
          m_caps := [(5%nat, sg); (4%nat, d ++ js " "); (3%nat, ln);
                     (2%nat, sev); (1%nat, ty)] |}.
Proof.
  intros Hty1 Hty2 Hsev1 Hsev2 Hln Hd Hsg.
  pose proof (numeral_digits ln Hln) as Hln2.
  assert (Hln1 : ln <> []) by (destruct ln; discriminate).
  unfold exec, issueLine. cbn [p_ci p_re issuePattern].
  rewrite (search_skip true _ (js "- ")).
  2:{ intros i Hi. cbn [seqs fold_right]. rewrite rmatch_seq, rmatch_lit.
      destruct i as [|[|i]]; [reflexivity|reflexivity|simpl in Hi; lia]. }
  eapply search_here. cbn [seqs fold_right]. unfold bar, ws, digits.
  cbn [seqs fold_right].
  (* TYPE: *)
  word. blank.
  { exact (@stopsAt_run isWordChar ty _ Hty1 Hty2 isWordChar_not_space). }
  field; [assumption|assumption|reflexivity|].
  blank; [reflexivity|]. pipe. blank; [reflexivity|].
  (* SEVERITY: *)
  word. blank.
  { exact (@stopsAt_run isWordChar sev _ Hsev1 Hsev2 isWordChar_not_space). }
  field; [assumption|assumption|reflexivity|].
  (* LINE: *)
  next. apply rmatch_opt_here.
  blank; [reflexivity|]. pipe. blank; [reflexivity|].
  word. blank.
  { exact (@stopsAt_run isDigit ln _ Hln1 Hln2 isDigit_not_space). }
  field; [assumption|assumption|reflexivity|].
  (* DESCRIPTION: *)
  blank; [reflexivity|]. pipe. blank; [reflexivity|].
  word. blank; [apply (@stopsAt_field isNotPipe), Hd|].
  next. rewrite (app_assoc d (js " ")).
  apply rmatch_group_here.
  { destruct d; discriminate. }
  { rewrite forallb_app. destruct Hd as (_ & -> & _). reflexivity. }
  { reflexivity. }
  (* SUGGESTION: *)
  next.
  change ([PIPE] ++ js " " ++ js "SUGGESTION:" ++ js " " ++ sg)
    with ([] ++ [PIPE] ++ js " " ++ js "SUGGESTION:" ++ js " " ++ sg).
  blank; [reflexivity|]. pipe. blank; [reflexivity|].
  word. blank; [exact (proj2 (proj2 Hsg))|].
  next. rewrite <- (app_nil_r sg) at 1.
  apply rmatch_group_here;
    [exact (proj1 Hsg)|exact (proj1 (proj2 Hsg))|exact I|].
  next. reflexivity.
Qed.

End IssueFacts.

Import IssueFacts CrlfFacts.

(** X19: a line of the [CODE_ISSUES:] section in the layout that the prompt
    asks for, [- TYPE: t | SEVERITY: s | LINE: n | DESCRIPTION: d |
    SUGGESTION: g], is parsed into its five fields: [t] and [s]
    lower-cased, [n] as a number, [d] and [g] trimmed. *)
Theorem well_formed_issue_line text maxScore hdr body ty sev ln d sg :
  sectionAt "code_issues:" [] (splitLines text) hdr body ->
  In (issueLine ty sev ln d sg) body ->
  ty <> [] -> forallb isWordChar ty = true ->
  sev <> [] -> forallb isWordChar sev = true ->
  isNumeral ln = true ->
  isField isNotPipe d -> isField isDot sg ->
  exists issues,
    codeIssues (parseCodeAnalysisResponse Completes text maxScore)
    = Some issues /\
    In {| type := toLowerCase ty; line := Some (parseInt ln);
          description := trim d; severity := toLowerCase sev;
          suggestion := trim sg |} issues.
Proof.
  intros Hs Hin Hty1 Hty2 Hsev1 Hsev2 Hln Hd Hsg. open_parse.
  rewrite (extractIssues_at Hs).
  assert (H : In {| type := toLowerCase ty; line := Some (parseInt ln);
                    description := trim d; severity := toLowerCase sev;
                    suggestion := trim sg |} (issuesLoop body)).
  { apply issuesLoop_In.
    exists (issueLine ty sev ln d sg). eexists.
    split; [exact Hin|]. split; [reflexivity|].
    split; [exact (@issueLine_match ty sev ln d sg Hty1 Hty2 Hsev1 Hsev2
                     Hln Hd Hsg)|].
    unfold mkIssue, capture, group. cbn [m_caps lookup Nat.eqb].
    destruct (@numeral_cons ln Hln) as (c & cs & -> & _).
    change (js " ") with [32%N].
    now rewrite trim_snoc_space. }
  destruct (issuesLoop body) as [|i others]; [destruct H|].
  eexists. split; [reflexivity|exact H].
Qed.

Lemma well_formed_issue_line_witness :
  exists issues,
    codeIssues (parseCodeAnalysisResponse Completes
      (unlines ["CODE_ISSUES:";
                "- TYPE: Logic | SEVERITY: high | LINE: 12 | DESCRIPTION: off by one | SUGGESTION: use <="])
      100) = Some issues /\
    In {| type := toLowerCase (js "Logic");
          line := Some (parseInt (js "12"));
          description := trim (js "off by one");
          severity := toLowerCase (js "high");
          suggestion := trim (js "use <=") |} issues.
Proof.
  apply (@well_formed_issue_line _ 100 (js "CODE_ISSUES:")
           [issueLine (js "Logic") (js "high") (js "12") (js "off by one")
                      (js "use <=")]).
  - exists [], []. split; [vm_compute; reflexivity|].
    split; [intros x []|]. split; [vm_compute; reflexivity|].
    split; [intros x _; reflexivity|exact I].
  - now left.
  - discriminate.
  - reflexivity.
  - discriminate.
  - reflexivity.
  - reflexivity.
  - repeat split; (discriminate || reflexivity).
  - repeat split; (discriminate || reflexivity).
Defined.

Lemma sameUpToCR_trim l' l : sameUpToCR l' l -> trim l' = trim l.
Proof.
  intros [->| ->]; [reflexivity|]. now apply trim_snoc_space.
Qed.

Lemma splitLines_cr ls' ls :
  Forall2 sameUpToCR ls' ls ->
  (forall l, In l ls' -> ~ In LF l) ->
  splitLines (join [LF] ls') = splitLines (join [LF] ls).
Proof.
  intros HF Hno.
  assert (Hno' : forall l, In l ls -> ~ In LF l).
  { clear - HF Hno. induction HF as [|l' l ls' ls Hl HF IH]; [intros ? []|].
    intros x [<-|Hx].
    - intros Hx. apply (Hno l' (or_introl eq_refl)).
      destruct Hl as [->| ->]; [exact Hx|].
      apply in_or_app. now left.
    - apply IH; [|exact Hx]. intros y Hy. apply Hno. now right. }
  rewrite !splitLines_join by assumption.
  clear Hno Hno'. induction HF as [|l' l ls' ls Hl HF IH]; [reflexivity|].
  cbn [map filter]. now rewrite (sameUpToCR_trim Hl), IH.
Qed.

(** X20: carriage returns at the ends of lines make no difference to what
    is read line by line: the whole result of the generic parser, and the
    score, category, feedback, strengths, improvements and issues of the
    code parser, are the same with CR LF line ends as with LF. *)
Theorem carriage_returns_ignored ls' ls maxScore :
  Forall2 sameUpToCR ls' ls ->
  (forall l, In l ls' -> ~ In LF l) ->
  let crlf := join [LF] ls' in
  let lf := join [LF] ls in
  parseAnalysisResponse Completes crlf maxScore
  = parseAnalysisResponse Completes lf maxScore /\
  let r' := parseCodeAnalysisResponse Completes crlf maxScore in
  let r := parseCodeAnalysisResponse Completes lf maxScore in
  score r' = score r /\ category r' = category r /\
  feedback r' = feedback r /\ strengths r' = strengths r /\
  improvements r' = improvements r /\ codeIssues r' = codeIssues r.
Proof.
  intros HF Hno crlf lf. subst crlf lf.
  pose proof (splitLines_cr HF Hno) as E.
  unfold parseAnalysisResponse, parseCodeAnalysisResponse, textParse,
    codeParse. cbn [score category feedback strengths improvements
    codeIssues]. rewrite E. repeat split; reflexivity.
Qed.

Lemma carriage_returns_ignored_witness :
  parseAnalysisResponse Completes
    (join [LF] [js "SCORE: 7" ++ [13%N]; js "FEEDBACK: ok" ++ [13%N]; []]) 10
  = parseAnalysisResponse Completes
    (join [LF] [js "SCORE: 7"; js "FEEDBACK: ok"; []]) 10.
Proof.
  apply (@carriage_returns_ignored
           [js "SCORE: 7" ++ [13%N]; js "FEEDBACK: ok" ++ [13%N]; []]
           [js "SCORE: 7"; js "FEEDBACK: ok"; []] 10).
  - repeat constructor; right; reflexivity.
  - intros l [<-|[<-|[<-|[]]]]; vm_compute; intuition discriminate.
Defined.

(** X21: [POST /analyze] hands the message of a failure of the AI client
    on to the caller: for a [text] that is not blank, when the client
    raises an [Error] with message [msg] the answer is 500 with
    [{error: "Failed to analyze text: " + msg}], and when it gives no
    response the message is [No response received from Gemini]. *)
Theorem postAnalyze_upstream_failure o t opts gemini :
  isEmpty (trim t) = false ->
  let req := {| text := Some t; options := opts |} in
  (forall msg, (forall p, gemini p = Raises (ErrorWith msg)) ->
     snd (postAnalyze o req gemini) =
     {| Analyze.status := 500;
        Analyze.json :=
          Analyze.ErrorBody (Known (js "Failed to analyze text: " ++ msg)) |})
  /\
  ((forall p, gemini p = NoResponse) ->
   snd (postAnalyze o req gemini) =
   {| Analyze.status := 500;
      Analyze.json :=
        Analyze.ErrorBody
          (Known (js "Failed to analyze text: No response received from Gemini"))
   |}).
Proof.
  intros Hne req. subst req. unfold postAnalyze. cbn [text options].
  unfold analyzeText. rewrite Hne. cbn [runTask app].
  match goal with |- context [gemini ?q] => set (p0 := q) end.
  split; [intros msg H|intros H]; rewrite (H p0); reflexivity.
Qed.

Lemma postAnalyze_upstream_failure_witness :
  snd (postAnalyze Completes
         {| text := Some (js "An essay."); options := None |}
         (fun _ => NoResponse)) =
  {| Analyze.status := 500;
     Analyze.json :=
       Analyze.ErrorBody
         (Known (js "Failed to analyze text: No response received from Gemini"))
  |}.
Proof.
  destruct (@postAnalyze_upstream_failure Completes (js "An essay.") None
              (fun _ => NoResponse) eq_refl) as [_ H].
  apply H. reflexivity.
Defined.
